(** * ClickerMSU: registry, ranking and snapshot synchronisation

    A shallow embedding of [main/insertion_deleting_sqlite.py]: the
    [login_id] table of [users.db], the three module-level globals that
    locate the backup document, the JSON text exchanged with the chat
    channel, and the handlers [update_data], [save_data], [register],
    [sighin] and [delete].

    Conventions.
    - A Python [str] is the list of its code points ([pystr]).
    - A Python [int] is a [Z].
    - The table [login_id (id INTEGER, username TEXT, password TEXT)] has
      no key; it is the list of its rows in insertion (rowid) order.
    - The Telegram client ([telebot]) is an interface ([BotAPI]); every
      call to it may raise.
    - Console output ([print]) is not part of the model.
    - Where the behaviour of a library on an input is not modelled, a
      handler ends in [Unmodelled] and no statement is made about it. *)

From Stdlib Require Import String Ascii ZArith NArith List Bool Lia.
From Stdlib Require Import Permutation Sorted DecimalPos DecimalN.
Import ListNotations.

Local Open Scope N_scope.

(* ================================================================== *)
(** * Text *)

(** A Python string: its code points, in order. *)
Definition pystr := list N.

(** The literal [s], for 8-bit literals. *)
Definition lit (s : string) : pystr :=
  List.map N_of_ascii (list_ascii_of_string s).

Fixpoint pystr_eqb (a b : pystr) : bool :=
  match a, b with
  | [], [] => true
  | x :: a', y :: b' => (x =? y) && pystr_eqb a' b'
  | _, _ => false
  end.

(** What SQLite's TEXT columns and Python's UTF-8 codec can hold: Unicode
    scalar values, that is code points below 0x110000 outside the
    surrogate range 0xD800..0xDFFF. *)
Definition scalar (c : N) : Prop :=
  c < 55296 \/ (57344 <= c /\ c < 1114112).

Definition text (s : pystr) : Prop := Forall scalar s.

(** The same as tests. *)
Definition scalarb (c : N) : bool :=
  (c <? 55296) || ((57344 <=? c) && (c <? 1114112)).

Definition textb (s : pystr) : bool := forallb scalarb s.

(* ================================================================== *)
(** * The snapshot codec: [json.dumps] and [json.loads] *)

Module Json.

(** ** Encoding ([json.dumps], default options: [ensure_ascii=True],
    separators [', '] and [': ']) *)

(** One lower-case hex digit, ['{:x}'] of a value below 16. *)
Definition hex_digit (d : N) : N :=
  if d <? 10 then 48 + d else 87 + d.

(** ['\\u{0:04x}'.format(n)] for [n < 0x10000]. *)
Definition u_escape (n : N) : pystr :=
  [92; 117; hex_digit (n / 4096 mod 16); hex_digit (n / 256 mod 16);
   hex_digit (n / 16 mod 16); hex_digit (n mod 16)].

(** [py_encode_basestring_ascii]'s replacement of one character: the
    short escapes, the printable ASCII characters as they are, everything
    else as [\uXXXX], above the BMP as a surrogate pair. *)
Definition encode_char (c : N) : pystr :=
  if c =? 34 then [92; 34]
  else if c =? 92 then [92; 92]
  else if c =? 10 then [92; 110]
  else if c =? 13 then [92; 114]
  else if c =? 9 then [92; 116]
  else if c =? 12 then [92; 102]
  else if c =? 8 then [92; 98]
  else if (32 <=? c) && (c <=? 126) then [c]
  else if c <? 65536 then u_escape c
  else
    let n := c - 65536 in
    let s1 := N.lor 55296 (N.land (N.shiftr n 10) 1023) in
    let s2 := N.lor 56320 (N.land n 1023) in
    u_escape s1 ++ u_escape s2.

Definition encode_str (s : pystr) : pystr :=
  34 :: flat_map encode_char s ++ [34].

(** Decimal digits, most significant first. *)
Fixpoint uint_chars (d : Decimal.uint) : pystr :=
  match d with
  | Decimal.Nil => []
  | Decimal.D0 d => 48 :: uint_chars d
  | Decimal.D1 d => 49 :: uint_chars d
  | Decimal.D2 d => 50 :: uint_chars d
  | Decimal.D3 d => 51 :: uint_chars d
  | Decimal.D4 d => 52 :: uint_chars d
  | Decimal.D5 d => 53 :: uint_chars d
  | Decimal.D6 d => 54 :: uint_chars d
  | Decimal.D7 d => 55 :: uint_chars d
  | Decimal.D8 d => 56 :: uint_chars d
  | Decimal.D9 d => 57 :: uint_chars d
  end.

(** [int.__repr__], also Python's [str(n)] and ['{}'.format(n)]. *)
Definition encode_int (z : Z) : pystr :=
  match z with
  | Z0 => [48]
  | Zpos p => uint_chars (Pos.to_uint p)
  | Zneg p => 45 :: uint_chars (Pos.to_uint p)
  end.

(** The items of a JSON array, separated by [", "]. *)
Fixpoint join_items (items : list pystr) : pystr :=
  match items with
  | [] => []
  | [x] => x
  | x :: rest => x ++ 44 :: 32 :: join_items rest
  end.

Definition encode_array (items : list pystr) : pystr :=
  91 :: join_items items ++ [93].

(** A row of [fetchall()] is a tuple [(id, username, password)]; a tuple
    is written as a JSON array. *)
Definition encode_row (r : Z * pystr * pystr) : pystr :=
  let '(i, u, p) := r in
  encode_array [encode_int i; encode_str u; encode_str p].

Definition dumps (rows : list (Z * pystr * pystr)) : pystr :=
  encode_array (List.map encode_row rows).

(** The rows after the first, as [dumps] writes them. *)
Definition more_rows (rows : list (Z * pystr * pystr)) : pystr :=
  flat_map (fun r => 44 :: 32 :: encode_row r) rows.

(** ** Decoding ([json.loads]) *)

Definition is_ws (c : N) : bool :=
  (c =? 32) || (c =? 9) || (c =? 10) || (c =? 13).

Fixpoint skip_ws (s : pystr) : pystr :=
  match s with
  | c :: rest => if is_ws c then skip_ws rest else s
  | [] => []
  end.

(** The value of a hex digit, either case. *)
Definition hex_val (c : N) : option N :=
  if (48 <=? c) && (c <=? 57) then Some (c - 48)
  else if (97 <=? c) && (c <=? 102) then Some (c - 87)
  else if (65 <=? c) && (c <=? 70) then Some (c - 55)
  else None.

Definition hex4 (a b c d : N) : option N :=
  match hex_val a, hex_val b, hex_val c, hex_val d with
  | Some x, Some y, Some z, Some w => Some (((x * 16 + y) * 16 + z) * 16 + w)
  | _, _, _, _ => None
  end.

(** The character of a short escape [\c]. *)
Definition unescape (c : N) : option N :=
  if c =? 34 then Some 34
  else if c =? 92 then Some 92
  else if c =? 47 then Some 47
  else if c =? 98 then Some 8
  else if c =? 102 then Some 12
  else if c =? 110 then Some 10
  else if c =? 114 then Some 13
  else if c =? 116 then Some 9
  else None.

Definition is_high (u : N) : bool := (55296 <=? u) && (u <=? 56319).
Definition is_low (u : N) : bool := (56320 <=? u) && (u <=? 57343).

Definition cons_fst (c : N) (r : option (pystr * pystr)) :
  option (pystr * pystr) :=
  match r with
  | Some (s, rest) => Some (c :: s, rest)
  | None => None
  end.

(** [scanstring] (strict mode), entered after the opening quote: the
    decoded string and the input after the closing quote.  A control
    character, an unknown escape, a malformed [\uXXXX] or the end of the
    input is an error.  A high surrogate directly followed by an escaped
    low surrogate is joined into one character. *)
Fixpoint scanstring (s : pystr) : option (pystr * pystr) :=
  match s with
  | [] => None
  | c :: rest =>
    if c =? 34 then Some ([], rest)
    else if c =? 92 then
      match rest with
      | [] => None
      | e :: rest1 =>
        if e =? 117 then
          match rest1 with
          | h1 :: h2 :: h3 :: h4 :: rest2 =>
            match hex4 h1 h2 h3 h4 with
            | None => None
            | Some uni =>
              if is_high uni then
                match rest2 with
                | b :: u :: rest3 =>
                  if (b =? 92) && (u =? 117) then
                    match rest3 with
                    | l1 :: l2 :: l3 :: l4 :: rest4 =>
                      match hex4 l1 l2 l3 l4 with
                      | None => None
                      | Some uni2 =>
                        if is_low uni2 then
                          cons_fst
                            (65536 + N.lor (N.shiftl (uni - 55296) 10)
                                           (uni2 - 56320))
                            (scanstring rest4)
                        else cons_fst uni (scanstring rest2)
                      end
                    | _ => None
                    end
                  else cons_fst uni (scanstring rest2)
                | _ => cons_fst uni (scanstring rest2)
                end
              else cons_fst uni (scanstring rest2)
            end
          | _ => None
          end
        else
          match unescape e with
          | Some c' => cons_fst c' (scanstring rest1)
          | None => None
          end
      end
    else if c <? 32 then None
    else cons_fst c (scanstring rest)
  end.

(** The digit a character stands for, as a constructor of [Decimal.uint]. *)
Definition digit_of (c : N) : option (Decimal.uint -> Decimal.uint) :=
  if c =? 48 then Some Decimal.D0
  else if c =? 49 then Some Decimal.D1
  else if c =? 50 then Some Decimal.D2
  else if c =? 51 then Some Decimal.D3
  else if c =? 52 then Some Decimal.D4
  else if c =? 53 then Some Decimal.D5
  else if c =? 54 then Some Decimal.D6
  else if c =? 55 then Some Decimal.D7
  else if c =? 56 then Some Decimal.D8
  else if c =? 57 then Some Decimal.D9
  else None.

(** The longest run of digits at the head of the input. *)
Fixpoint scan_digits (s : pystr) : Decimal.uint * pystr :=
  match s with
  | [] => (Decimal.Nil, [])
  | c :: rest =>
    match digit_of c with
    | Some k => let (d, rest') := scan_digits rest in (k d, rest')
    | None => (Decimal.Nil, s)
    end
  end.

(** The integer part of [NUMBER_RE]: an optional minus sign, then a
    single 0 or a digit 1-9 followed by any digits.  A fraction or an
    exponent after it makes the value a float, which is no row id; in
    the positions where this scanner is used such input is rejected by
    the delimiter check that follows. *)
Definition scan_unsigned (s : pystr) : option (Z * pystr) :=
  match s with
  | [] => None
  | c :: rest =>
    if c =? 48 then Some (0%Z, rest)
    else
      match digit_of c with
      | Some _ =>
        let (d, rest') := scan_digits s in
        Some (Z.of_N (N.of_uint d), rest')
      | None => None
      end
  end.

Definition scan_int (s : pystr) : option (Z * pystr) :=
  match s with
  | [] => None
  | c :: rest =>
    if c =? 45 then
      match scan_unsigned rest with
      | Some (z, rest') => Some (Z.opp z, rest')
      | None => None
      end
    else scan_unsigned s
  end.

(** A string value: the opening quote, then [scanstring]. *)
Definition scan_str (s : pystr) : option (pystr * pystr) :=
  match s with
  | c :: rest => if c =? 34 then scanstring rest else None
  | [] => None
  end.

(** Expect the character [c] after optional white space. *)
Definition expect (c : N) (s : pystr) : option pystr :=
  match skip_ws s with
  | x :: rest => if x =? c then Some rest else None
  | [] => None
  end.

Notation "'get' x <- a ;; b" :=
  (match a with Some x => b | None => None end)
  (at level 10, x pattern, a at level 100, b at level 200,
   only parsing).

(** One row: a JSON array of exactly an integer and two strings, the
    shape [executemany("INSERT INTO login_id VALUES (?,?,?)", data)]
    binds into the table's columns. *)
Definition scan_row (s : pystr) : option ((Z * pystr * pystr) * pystr) :=
  get s1 <- expect 91 s ;;
  get (i, s2) <- scan_int (skip_ws s1) ;;
  get s3 <- expect 44 s2 ;;
  get (u, s4) <- scan_str (skip_ws s3) ;;
  get s5 <- expect 44 s4 ;;
  get (p, s6) <- scan_str (skip_ws s5) ;;
  get s7 <- expect 93 s6 ;;
  Some ((i, u, p), s7).

(** The items of the outer array after the first: [, row]* then []].
    Every item consumes input, so the length of the input is fuel
    enough. *)
Fixpoint scan_more (fuel : nat) (s : pystr) :
  option (list (Z * pystr * pystr) * pystr) :=
  match fuel with
  | O => None
  | S fuel' =>
    match skip_ws s with
    | c :: rest =>
      if c =? 93 then Some ([], rest)
      else if c =? 44 then
        get (r, s1) <- scan_row rest ;;
        get (rs, s2) <- scan_more fuel' s1 ;;
        Some (r :: rs, s2)
      else None
    | [] => None
    end
  end.

(** [JSONArray]: []] at once, or a first row and the rest. *)
Definition scan_rows (s : pystr) : option (list (Z * pystr * pystr) * pystr) :=
  get s1 <- expect 91 s ;;
  match skip_ws s1 with
  | c :: rest =>
    if c =? 93 then Some ([], rest)
    else
      get (r, s2) <- scan_row s1 ;;
      get (rs, s3) <- scan_more (List.length s2) s2 ;;
      Some (r :: rs, s3)
  | [] => None
  end.

(** [json.loads] on the document of a table: [Some rows] when the
    text is a JSON array of [[int, str, str]] rows, and then [rows] is
    what Python returns.  Nothing but white space may follow.

    The rows come back as lists where [fetchall()] gave tuples;
    [executemany] binds both alike and the model does not tell them
    apart.

    [None] covers two cases this function does not separate: text that
    is no JSON ([JSONDecodeError]), and well-formed JSON of another
    shape (a float or [null] for an id, a row of another length, an
    object), which Python parses.  A [None] is therefore never read as
    a parse error; see [get_data]. *)
Definition loads (s : pystr) : option (list (Z * pystr * pystr)) :=
  get (rows, rest) <- scan_rows s ;;
  match skip_ws rest with
  | [] => Some rows
  | _ :: _ => None
  end.

End Json.

(* ================================================================== *)
(** * The table [login_id] *)

(** A row as [fetchall()] returns it: the tuple [(id, username, password)]. *)
Definition Row : Type := Z * pystr * pystr.

Definition row_id (r : Row) : Z := fst (fst r).
Definition row_username (r : Row) : pystr := snd (fst r).
Definition row_password (r : Row) : pystr := snd r.

(** A row whose TEXT columns hold text. *)
Definition text_row (r : Row) : Prop :=
  text (row_username r) /\ text (row_password r).

(** What an INTEGER column holds: a signed 64-bit integer. *)
Definition int64 (z : Z) : Prop :=
  (-9223372036854775808 <= z /\ z < 9223372036854775808)%Z.

Definition int64b (z : Z) : bool :=
  ((-9223372036854775808 <=? z) && (z <? 9223372036854775808))%Z.

(** A row the table can hold. *)
Definition storable (r : Row) : Prop := int64 (row_id r) /\ text_row r.

Definition storableb (r : Row) : bool :=
  int64b (row_id r) && textb (row_username r) && textb (row_password r).

(** [SELECT COUNT( * ) FROM login_id WHERE username = u], for stating how
    many rows carry a name. *)
Definition count_username (u : pystr) (t : list Row) : nat :=
  List.length (filter (fun r => pystr_eqb (row_username r) u) t).

(** How many rows of [t] have an id above [i]. *)
Definition count_above (i : Z) (t : list Row) : nat :=
  List.length (filter (fun r => (i <? row_id r)%Z) t).

(** Whether some row carries the name [u]. *)
Definition has_username (u : pystr) (t : list Row) : bool :=
  existsb (fun r => pystr_eqb (row_username r) u) t.

(** The columns the ranking queries select. *)
Definition project (r : Row) : Z * pystr := (row_id r, row_username r).

(** Non-increasing ids, first to last. *)
Definition desc (a b : Z * pystr) : Prop := (fst b <= fst a)%Z.

(** How many entries of [l] have an id above [i]. *)
Definition above (i : Z) (l : list (Z * pystr)) : nat :=
  List.length (filter (fun e => (i <? fst e)%Z) l).

(** The exceptions the handlers can end in: a call to the bot or a
    download that raises; the end of the console input; a statement on
    a table that does not exist; an integer or a string that SQLite
    cannot bind. *)
Inductive exn :=
| ChannelError
| EOFError
| OperationalError
| OverflowError
| UnicodeEncodeError.

Module Sql.

(** [SELECT * FROM login_id] *)
Definition select_all (t : list Row) : list Row := t.

(** Binding a Python [int] and a Python [str] to a [?]: an integer
    outside 64 bits raises [OverflowError], a string with a surrogate
    code point [UnicodeEncodeError]. *)
Definition bind_int (z : Z) : option exn :=
  if int64b z then None else Some OverflowError.

Definition bind_str (s : pystr) : option exn :=
  if textb s then None else Some UnicodeEncodeError.

(** [INSERT INTO login_id (id, username, password) VALUES (?, ?, ?)]:
    the three values are bound in this order, then the row is added. *)
Definition insert (r : Row) (t : list Row) : exn + list Row :=
  match bind_int (row_id r) with
  | Some e => inl e
  | None =>
    match bind_str (row_username r) with
    | Some e => inl e
    | None =>
      match bind_str (row_password r) with
      | Some e => inl e
      | None => inr (t ++ [r])
      end
    end
  end.

(** [executemany("INSERT INTO login_id VALUES (?,?,?)", data)]: row
    after row, stopping at the first that raises. *)
Fixpoint insert_many (data : list Row) (t : list Row) : exn + list Row :=
  match data with
  | [] => inr t
  | r :: data' =>
    match insert r t with
    | inl e => inl e
    | inr t' => insert_many data' t'
    end
  end.

(** [SELECT username FROM login_id WHERE username = ?] (TEXT compares
    with the BINARY collation: exact, case-sensitive). *)
Definition select_username_where_username (u : pystr) (t : list Row) :
  list pystr :=
  List.map row_username (filter (fun r => pystr_eqb (row_username r) u) t).

(** [SELECT username, password FROM login_id WHERE username = ?] *)
Definition select_login_where_username (u : pystr) (t : list Row) :
  list (pystr * pystr) :=
  List.map (fun r => (row_username r, row_password r))
           (filter (fun r => pystr_eqb (row_username r) u) t).

(** [SELECT id FROM login_id WHERE id = x], for [x] within 64 bits (it
    is written into the statement as a literal). *)
Definition select_id_where_id (x : Z) (t : list Row) : list Z :=
  List.map row_id (filter (fun r => (row_id r =? x)%Z) t).

(** [DELETE FROM login_id WHERE id = x], for [x] within 64 bits. *)
Definition delete_where_id (x : Z) (t : list Row) : list Row :=
  filter (fun r => negb (row_id r =? x)%Z) t.

(** [cursor.fetchone()] *)
Definition fetchone {A : Type} (rows : list A) : option A := hd_error rows.

(** [ORDER BY id DESC] over the projection [(id, username)].  SQLite
    leaves the order of rows with equal ids open; this sorter keeps them
    in table order. *)
Fixpoint insert_desc (x : Z * pystr) (l : list (Z * pystr)) :
  list (Z * pystr) :=
  match l with
  | [] => [x]
  | y :: l' =>
    if (fst y <=? fst x)%Z then x :: l else y :: insert_desc x l'
  end.

Fixpoint order_by_id_desc (l : list (Z * pystr)) : list (Z * pystr) :=
  match l with
  | [] => []
  | x :: l' => insert_desc x (order_by_id_desc l')
  end.

(** [SELECT id, username FROM login_id ORDER BY id DESC LIMIT n] *)
Definition select_top (n : nat) (t : list Row) : list (Z * pystr) :=
  firstn n (order_by_id_desc (List.map (fun r => (row_id r, row_username r)) t)).

(** [ROW_NUMBER()]: number the rows from [k]. *)
Fixpoint row_number (k : Z) (l : list (Z * pystr)) : list (Z * pystr * Z) :=
  match l with
  | [] => []
  | x :: l' => (fst x, snd x, k) :: row_number (k + 1) l'
  end.

(** [SELECT id, username, ROW_NUMBER() over(ORDER BY id DESC) AS Row
     FROM login_id] *)
Definition select_ranked (t : list Row) : list (Z * pystr * Z) :=
  row_number 1
    (order_by_id_desc (List.map (fun r => (row_id r, row_username r)) t)).

End Sql.

(** The rank engine as [register] uses it: the top of the board, and
    [[i for i in user_place if i[1] == username_in]]. *)
Definition top_n (n : nat) (t : list Row) : list (Z * pystr) :=
  Sql.select_top n t.

Definition rank_of (u : pystr) (t : list Row) : list (Z * pystr * Z) :=
  filter (fun i => pystr_eqb (snd (fst i)) u) (Sql.select_ranked t).


(** The document of a table: the JSON text of rows the table can hold.
    On any other text this model of the pull makes no statement. *)
Definition table_of (blob : pystr) : option (list Row) :=
  match Json.loads blob with
  | Some data => if forallb storableb data then Some data else None
  | None => None
  end.

(** The rows of [users.db]: none while the table does not exist. *)
Definition rows_of (table : option (list Row)) : list Row :=
  match table with
  | Some t => t
  | None => []
  end.

(* ================================================================== *)
(** * The chat channel *)

(** The fields of an incoming [telebot] message the handlers read. *)
Record Message := mkMessage { chat_id : Z; message_id : Z }.

(** The calls to [bot] the handlers make.  [None] and [false] stand for
    a call that raises.
    - [fetch ch file_id]: [get_file], [get_file_url], then the body of
      [urlopen(url)] decoded as UTF-8;
    - [send_document ch chat text]: the [file_id] of the document of the
      message sent, and the channel afterwards;
    - [edit_message_media ch chat message text]: the [file_id] of the
      document of the edited message the call returns, and the channel
      afterwards;
    - [delivers ch n chat text]: whether [send_message(chat, text)]
      returns, being the call number [n] of its kind.  A notification
      does not change what the document operations do. *)
Class BotAPI (Chan : Type) := {
  fetch : Chan -> pystr -> option pystr;
  send_document : Chan -> Z -> pystr -> option (pystr * Chan);
  edit_message_media : Chan -> Z -> Z -> pystr -> option (pystr * Chan);
  delivers : Chan -> nat -> Z -> pystr -> bool
}.

(** The document operations a handler attempted, oldest first. *)
Inductive Call :=
| CallFetch (file_id : pystr)
| CallSendDocument (chat : Z) (blob : pystr)
| CallEditMedia (chat message : Z) (blob : pystr).

(** How a handler ends: it returns, it raises, or it has left what
    this model covers. *)
Inductive result (A : Type) :=
| Ok (a : A)
| Raise (e : exn)
| Unmodelled.
Arguments Ok {A} a.
Arguments Raise {A} e.
Arguments Unmodelled {A}.

(** The location of the backup: the globals [global_data_chat],
    [global_data_message] and [global_file_id]. *)
Record Pointer := mkPointer {
  global_data_chat : Z;
  global_data_message : Z;
  global_file_id : pystr
}.

(** The values the module assigns when it is loaded. *)
Definition initial_pointer : Pointer :=
  mkPointer 721641425 430
    (lit "BQACAgIAAxkDAAIBrmKbrXkKo_0d3Nbo-Cmr1Zpy0_fWAALzGwACYDDgSFN_tbcimLj3JAQ").

Section Handlers.

Context {Chan : Type} {api : BotAPI Chan}.

(** Everything a handler reads or writes.
    - [login_id]: the committed rows of the table, [None] while
      [users.db] has no such table;
    - [outbox]: the notifications (chat, text) that were delivered,
      oldest first; [sends]: how many were attempted;
    - [stdin]: what [input()] will read, line by line. *)
Record World := mkWorld {
  login_id : option (list Row);
  pointer : Pointer;
  chan : Chan;
  calls : list Call;
  outbox : list (Z * pystr);
  sends : nat;
  stdin : list pystr
}.

Definition with_login_id (t : list Row) (w : World) : World :=
  mkWorld (Some t) (pointer w) (chan w) (calls w) (outbox w) (sends w) (stdin w).
Definition with_pointer (p : Pointer) (w : World) : World :=
  mkWorld (login_id w) p (chan w) (calls w) (outbox w) (sends w) (stdin w).
Definition with_chan (c : Chan) (w : World) : World :=
  mkWorld (login_id w) (pointer w) c (calls w) (outbox w) (sends w) (stdin w).
Definition with_call (c : Call) (w : World) : World :=
  mkWorld (login_id w) (pointer w) (chan w) (calls w ++ [c]) (outbox w)
          (sends w) (stdin w).
Definition with_sent (chat : Z) (text : pystr) (w : World) : World :=
  mkWorld (login_id w) (pointer w) (chan w) (calls w)
          (outbox w ++ [(chat, text)]) (S (sends w)) (stdin w).
Definition with_unsent (w : World) : World :=
  mkWorld (login_id w) (pointer w) (chan w) (calls w) (outbox w)
          (S (sends w)) (stdin w).
Definition with_stdin (l : list pystr) (w : World) : World :=
  mkWorld (login_id w) (pointer w) (chan w) (calls w) (outbox w) (sends w) l.

(** ** A state and exception monad *)

Definition M (A : Type) : Type := World -> result A * World.

Definition ret {A} (a : A) : M A := fun w => (Ok a, w).

Definition raise {A} (e : exn) : M A := fun w => (Raise e, w).

Definition unmodelled {A} : M A := fun w => (Unmodelled, w).

Definition bind {A B} (m : M A) (k : A -> M B) : M B :=
  fun w =>
    match m w with
    | (Ok a, w') => k a w'
    | (Raise e, w') => (Raise e, w')
    | (Unmodelled, w') => (Unmodelled, w')
    end.

(** [try: m  except Exception as ex: print(ex)] *)
Definition try_except (m : M unit) : M unit :=
  fun w =>
    match m w with
    | (Ok a, w') => (Ok a, w')
    | (Raise _, w') => (Ok tt, w')
    | (Unmodelled, w') => (Unmodelled, w')
    end.

Definition gets {A} (f : World -> A) : M A := fun w => (Ok (f w), w).
Definition modify (f : World -> World) : M unit := fun w => (Ok tt, f w).

Notation "x <- m ;; k" := (bind m (fun x => k))
  (at level 61, m at next level, right associativity).
Notation "m ;;; k" := (bind m (fun _ => k))
  (at level 61, right associativity).

(** [bot.send_message(chat, text)] *)
Definition send_message (chat : Z) (text : pystr) : M unit :=
  fun w =>
    if delivers (chan w) (sends w) chat text
    then (Ok tt, with_sent chat text w)
    else (Raise ChannelError, with_unsent w).

(** [str(input(prompt))] *)
Definition input : M pystr :=
  fun w =>
    match stdin w with
    | [] => (Raise EOFError, w)
    | line :: rest => (Ok line, with_stdin rest w)
    end.

Definition bot_fetch (file_id : pystr) : M pystr :=
  fun w =>
    let w' := with_call (CallFetch file_id) w in
    match fetch (chan w) file_id with
    | Some blob => (Ok blob, w')
    | None => (Raise ChannelError, w')
    end.

Definition bot_send_document (chat : Z) (blob : pystr) : M pystr :=
  fun w =>
    let w' := with_call (CallSendDocument chat blob) w in
    match send_document (chan w) chat blob with
    | Some (file_id, ch) => (Ok file_id, with_chan ch w')
    | None => (Raise ChannelError, w')
    end.

Definition bot_edit_message_media (chat message : Z) (blob : pystr) : M pystr :=
  fun w =>
    let w' := with_call (CallEditMedia chat message blob) w in
    match edit_message_media (chan w) chat message blob with
    | Some (file_id, ch) => (Ok file_id, with_chan ch w')
    | None => (Raise ChannelError, w')
    end.

(** ** Statements on [users.db]

    Every handler opens its own connection and commits after its
    writes, so a statement sees the committed rows.  A statement on
    [login_id] raises [OperationalError] while the table does not
    exist. *)

Definition table : M (list Row) :=
  fun w =>
    match login_id w with
    | Some t => (Ok t, w)
    | None => (Raise OperationalError, w)
    end.

(** [CREATE TABLE IF NOT EXISTS login_id (...)] *)
Definition create_table : M unit :=
  modify (fun w => with_login_id (rows_of (login_id w)) w).

(** A SELECT without parameters, and one with a string parameter: the
    statement is prepared, then the string is bound. *)
Definition query {A} (q : list Row -> A) : M A :=
  t <- table ;; ret (q t).

Definition query_str {A} (s : pystr) (q : list Row -> A) : M A :=
  t <- table ;;
  match Sql.bind_str s with
  | Some e => raise e
  | None => ret (q t)
  end.

(** The INSERT of one row and of many, each followed by its
    [commit()]; when a value cannot be bound nothing is committed. *)
Definition execute_insert (r : Row) : M unit :=
  t <- table ;;
  match Sql.insert r t with
  | inl e => raise e
  | inr t' => modify (with_login_id t')
  end.

Definition executemany_insert (data : list Row) : M unit :=
  t <- table ;;
  match Sql.insert_many data t with
  | inl e => raise e
  | inr t' => modify (with_login_id t')
  end.

(** ** The handlers *)

(** [get_data()]: download the document [global_file_id] names and parse
    it.  The download may raise.  The parse is modelled on the document
    of a table ([table_of]); on any other text, be it no JSON at all or
    JSON of another shape or with values the table cannot hold, the
    model stops. *)
Definition get_data : M (list Row) :=
  file_id <- gets (fun w => global_file_id (pointer w)) ;;
  json_file <- bot_fetch file_id ;;
  match table_of json_file with
  | Some data => ret data
  | None => unmodelled
  end.

(** [update_data(messg)]: read the table and write it into the message
    the pointer names.  The SELECT is outside the [try]; an exception
    of the edit is caught and printed, and the message the edit returns
    is dropped. *)
Definition update_data (messg : option Message) : M unit :=
  data <- query Sql.select_all ;;
  let str_data := Json.dumps data in
  p <- gets pointer ;;
  try_except
    (bot_edit_message_media (global_data_chat p) (global_data_message p)
                            str_data ;;;
     ret tt).

(** [save_data(messg)]: send the table as a new document, tell the chat
    where it went and record it in the globals, then write the table
    into that message once more. *)
Definition save_data (messg : Message) : M unit :=
  data <- query Sql.select_all ;;
  let str_data := Json.dumps data in
  file_id <- bot_send_document (chat_id messg) str_data ;;
  send_message (chat_id messg)
    (lit "admin_id = " ++ Json.encode_int (chat_id messg)) ;;;
  send_message (chat_id messg)
    (lit "config_id = " ++ Json.encode_int (message_id messg + 1)) ;;;
  let admin_id := chat_id messg in
  let config_id := (message_id messg + 1)%Z in
  modify (with_pointer (mkPointer (chat_id messg) (message_id messg + 1) file_id)) ;;;
  send_message (chat_id messg) (lit "file_id = " ++ file_id) ;;;
  data <- query Sql.select_all ;;
  try_except
    (let str_data := Json.dumps data in
     bot_edit_message_media admin_id config_id str_data ;;;
     ret tt).

(** The "server case" that opens [register] and [sighin]:
    [CREATE TABLE IF NOT EXISTS], [data = get_data()], [executemany] of
    the INSERT over [data], [commit].  The table is created before the
    download, so it exists afterwards even when the download fails. *)
Definition pull : M unit :=
  create_table ;;;
  data <- get_data ;;
  executemany_insert data.

(** [register(messg, username_in, password_in)].  A [messg] without a
    readable [chat.id] is [None]. *)
Definition register (messg : option Message)
           (username_in password_in : option pystr) :
  M (option (list (Z * pystr)) * option (list (Z * pystr * Z))) :=
  pull ;;;
  username_in <- match username_in with
                 | None => input
                 | Some u => ret u
                 end ;;
  let user_id := match messg with
                 | Some m => chat_id m
                 | None => 0%Z
                 end in
  name_out <- query_str username_in (fun t =>
    Sql.fetchone (Sql.select_username_where_username username_in t)) ;;
  match name_out with
  | None =>
    password_in <- match password_in with
                   | None => input
                   | Some p => ret p
                   end ;;
    execute_insert (user_id, username_in, password_in) ;;;
    update_data None ;;;
    results_10 <- query (Sql.select_top 10) ;;
    user_place <- query Sql.select_ranked ;;
    let user_place :=
      filter (fun i => pystr_eqb (snd (fst i)) username_in) user_place in
    ret (Some results_10, Some user_place)
  | Some _ => ret (None, None)
  end.

(** The text [sighin] sends to a user it does not know. *)
Definition not_registered : pystr :=
  [1042; 1099; 32; 1077; 1097; 1105; 32; 1085; 1077; 32; 1088; 1077; 1075;
   1077; 1089; 1090; 1088; 1080; 1088; 1086; 1074; 1072; 1083; 1080; 1089;
   1100; 46].

(** [sighin(messg)]: the verdict on the password is printed only. *)
Definition sighin (messg : Message) : M unit :=
  pull ;;;
  username_in <- input ;;
  name_out <- query_str username_in (fun t =>
    Sql.fetchone (Sql.select_login_where_username username_in t)) ;;
  match name_out with
  | None => send_message (chat_id messg) not_registered
  | Some name_out =>
    password_in <- input ;;
    if pystr_eqb (snd name_out) password_in then ret tt else ret tt
  end.

(** [delete(messg)].  The chat id is written into the two statements as
    a literal; outside 64 bits SQLite reads such a literal as a float,
    which is not modelled.  The DELETE runs before the notification and
    is committed after it: when the notification raises, the connection
    is dropped with the DELETE uncommitted, so the table changes only
    once the notification has returned. *)
Definition delete (messg : Message) : M unit :=
  send_message (chat_id messg) (lit "Deleting") ;;;
  let people_id := chat_id messg in
  t <- table ;;
  if int64b people_id then
    match Sql.fetchone (Sql.select_id_where_id people_id t) with
    | None => send_message (chat_id messg) (lit "NO SUCH USER IN DATABASE")
    | Some _ =>
      send_message (chat_id messg)
        (lit "Deleted user " ++ Json.encode_int people_id) ;;;
      modify (with_login_id (Sql.delete_where_id people_id t))
    end
  else unmodelled.

(** ** Vocabulary for the statements below *)

(** The id [register] inserts for [messg]. *)
Definition user_id_of (messg : option Message) : Z :=
  match messg with
  | Some m => chat_id m
  | None => 0%Z
  end.

(** The notifications [texts], attempted in this order from call
    number [n] on, are all delivered. *)
Fixpoint delivered (ch : Chan) (n : nat) (chat : Z) (texts : list pystr) : Prop :=
  match texts with
  | [] => True
  | text :: rest => delivers ch n chat text = true /\ delivered ch (S n) chat rest
  end.

(** The three notifications of [save_data], in their order. *)
Definition save_notes (messg : Message) (file_id : pystr) : list pystr :=
  [lit "admin_id = " ++ Json.encode_int (chat_id messg);
   lit "config_id = " ++ Json.encode_int (message_id messg + 1);
   lit "file_id = " ++ file_id].

(** The call [update_data] makes on the table [t], and the world it
    leaves: the edit is attempted once; the channel changes only if it
    is accepted. *)
Definition update_call (t : list Row) (w : World) : Call :=
  CallEditMedia (global_data_chat (pointer w)) (global_data_message (pointer w))
                (Json.dumps t).

Definition update_world (t : list Row) (w : World) : World :=
  match edit_message_media (chan w) (global_data_chat (pointer w))
          (global_data_message (pointer w)) (Json.dumps t) with
  | Some (_, ch) => with_chan ch (with_call (update_call t w) w)
  | None => with_call (update_call t w) w
  end.

(** The world after a pull that read the rows [data]. *)
Definition pulled (data : list Row) (w : World) : World :=
  with_login_id (rows_of (login_id w) ++ data)
    (with_call (CallFetch (global_file_id (pointer w))) w).

(** A computation that never writes the pointer. *)
Definition keeps_pointer {A} (m : M A) : Prop :=
  forall w, pointer (snd (m w)) = pointer w.

(** A computation that leaves the table as it is. *)
Definition keeps_table {A} (m : M A) : Prop :=
  forall w, login_id (snd (m w)) = login_id w.

(** A computation that only appends rows to the table. *)
Definition grows {A} (m : M A) : Prop :=
  forall w, exists added,
    rows_of (login_id (snd (m w))) = rows_of (login_id w) ++ added.

End Handlers.

Arguments World Chan : clear implicits.
Arguments M Chan A : clear implicits.

(* ================================================================== *)
(** * A concrete channel

    A chat that keeps every document it was given under a fresh
    [file_id], as Telegram does: sending a document and replacing the
    media of a message both store a new file, and an old [file_id] keeps
    naming the old content.  Each document operation can be switched
    off, and the chat delivers a fixed number of notifications, to play
    a failing channel. *)

Record SimChan := mkSim {
  sim_files : list (pystr * pystr);
  sim_fetch_up : bool;
  sim_send_up : bool;
  sim_edit_up : bool;
  sim_serial : Z;
  sim_notes : nat
}.

Fixpoint assoc (k : pystr) (l : list (pystr * pystr)) : option pystr :=
  match l with
  | [] => None
  | (k', v) :: l' => if pystr_eqb k' k then Some v else assoc k l'
  end.

Definition sim_fresh (ch : SimChan) : pystr :=
  lit "doc" ++ Json.encode_int (sim_serial ch).

Definition sim_store (blob : pystr) (ch : SimChan) : SimChan :=
  mkSim ((sim_fresh ch, blob) :: sim_files ch)
        (sim_fetch_up ch) (sim_send_up ch) (sim_edit_up ch)
        (sim_serial ch + 1) (sim_notes ch).

#[export] Instance sim_api : BotAPI SimChan := {|
  fetch ch file_id :=
    if sim_fetch_up ch then assoc file_id (sim_files ch) else None;
  send_document ch chat blob :=
    if sim_send_up ch then Some (sim_fresh ch, sim_store blob ch) else None;
  edit_message_media ch chat message blob :=
    if sim_edit_up ch then Some (sim_fresh ch, sim_store blob ch) else None;
  delivers ch n chat text := Nat.ltb n (sim_notes ch)
|}.

(** A chat holding one backup, [doc0], of the table [t], with the
    pointer on it; it delivers [notes] notifications. *)
Definition sim_chat (t : list Row) (fetch_up send_up edit_up : bool)
           (notes : nat) : SimChan :=
  mkSim [(lit "doc0", Json.dumps t)] fetch_up send_up edit_up 1 notes.

Definition sim_pointer : Pointer := mkPointer 721641425 430 (lit "doc0").

(** An existing table [t], and a fresh [users.db] without the table. *)
Definition sim_world (t backup : list Row) (fetch_up send_up edit_up : bool)
  : World SimChan :=
  mkWorld (Some t) sim_pointer (sim_chat backup fetch_up send_up edit_up 100)
          [] [] 0 [].

Definition sim_world_notes (t : list Row) (notes : nat) : World SimChan :=
  mkWorld (Some t) sim_pointer (sim_chat [] true true true notes) [] [] 0 [].

Definition sim_fresh_db : World SimChan :=
  mkWorld None sim_pointer (sim_chat [] true true true 100) [] [] 0 [].

Definition alice : Row := (1%Z, lit "alice", lit "pw1").
Definition bob : Row := (5%Z, lit "bob", lit "pw2").
Definition carol : Row := (3%Z, lit "carol", lit "pw3").

(* ================================================================== *)
(** * Switchable options ([ClickerMSU/Option.py])

    The state of [Option_switchable] that its methods compute with: the
    deque of variants and the current variant.  Surfaces, rectangles and
    fonts are drawing data and are left out, but not the fact that
    [font.render] can refuse a text (one with a NUL character, for one):
    which texts the option's font renders is a parameter. *)

Module Opt.

Inductive error :=
| AttributeError
| IndexError
| TypeError
| ValueError
| RenderError.

Inductive outcome (A : Type) :=
| Done (a : A)
| Fail (e : error).
Arguments Done {A} a.
Arguments Fail {A} e.

(** [self.variants] is a deque or [None]; [self.curr_var] a string or
    [None]. *)
Record Switch := mkSwitch {
  variants : option (list pystr);
  curr_var : option pystr
}.

(** [deque.rotate(-1)]: the first element goes to the end. *)
Definition rotate_left (d : list pystr) : list pystr :=
  match d with
  | [] => []
  | x :: l => l ++ [x]
  end.

(** [deque.rotate(1)]: the last element comes to the front. *)
Definition rotate_right (d : list pystr) : list pystr :=
  match d with
  | [] => []
  | x :: l => last d x :: removelast d
  end.

(** [value in self.variants] *)
Definition mem (value : pystr) (d : list pystr) : bool :=
  existsb (pystr_eqb value) d.

Section Methods.

(** [renders text]: whether [self.font.render(text, True, WHITE)]
    returns; [RenderError] is the exception it raises otherwise. *)
Variable renders : pystr -> bool.

(** [self.curr_var = self.variants[0]] and
    [self.curr_var_text = self.font.render(self.curr_var, ...)], after
    the deque became [d].  The assignment precedes the rendering. *)
Definition take_head (d : list pystr) (s : Switch) : outcome unit * Switch :=
  match d with
  | [] => (Fail IndexError, mkSwitch (Some d) (curr_var s))
  | x :: _ =>
    if renders x then (Done tt, mkSwitch (Some d) (Some x))
    else (Fail RenderError, mkSwitch (Some d) (Some x))
  end.

Definition switch_next (s : Switch) : outcome unit * Switch :=
  match variants s with
  | None => (Fail AttributeError, s)
  | Some d => take_head (rotate_left d) s
  end.

Definition switch_prev (s : Switch) : outcome unit * Switch :=
  match variants s with
  | None => (Fail AttributeError, s)
  | Some d => take_head (rotate_right d) s
  end.

(** [switch_mb(position)], given what [checkForInput(position)] answers
    on the two buttons ([Button] is not part of these sources). *)
Definition switch_mb (prev_hit next_hit : bool) (s : Switch) :
  outcome bool * Switch :=
  if prev_hit then
    match switch_prev s with
    | (Done _, s') => (Done true, s')
    | (Fail e, s') => (Fail e, s')
    end
  else if next_hit then
    match switch_next s with
    | (Done _, s') => (Done true, s')
    | (Fail e, s') => (Fail e, s')
    end
  else (Done false, s).

(** [while value != self.variants[0]: self.variants.rotate(-1)], at most
    [fuel] turns; [None] when the fuel runs out. *)
Fixpoint seek (fuel : nat) (value : pystr) (d : list pystr) :
  option (outcome unit * list pystr) :=
  match d with
  | [] => Some (Fail IndexError, d)
  | x :: _ =>
    if pystr_eqb value x then Some (Done tt, d)
    else
      match fuel with
      | O => None
      | S fuel' => seek fuel' value (rotate_left d)
      end
  end.

Definition set_curr_value (fuel : nat) (value : pystr) (s : Switch) :
  option (outcome unit * Switch) :=
  match variants s with
  | None => Some (Fail TypeError, s)
  | Some d =>
    if negb (mem value d) then Some (Fail ValueError, s)
    else
      match seek fuel value d with
      | None => None
      | Some (Fail e, d') => Some (Fail e, mkSwitch (Some d') (curr_var s))
      | Some (Done _, d') => Some (take_head d' s)
      end
  end.

(** [n] calls of [switch_next], stopping at a failure. *)
Fixpoint switch_next_times (n : nat) (s : Switch) : outcome unit * Switch :=
  match n with
  | O => (Done tt, s)
  | S n' =>
    match switch_next s with
    | (Done _, s') => switch_next_times n' s'
    | (Fail e, s') => (Fail e, s')
    end
  end.

(** An option as [__init__] makes it from a non-empty tuple of variants
    that its font renders, possibly switched since: the deque is not
    empty, its variants render, and the current variant is its first
    element. *)
Definition all_render (d : list pystr) : Prop :=
  Forall (fun v => renders v = true) d.

Definition ready (s : Switch) : Prop :=
  exists x l,
    variants s = Some (x :: l) /\ curr_var s = Some x
    /\ all_render (x :: l).

End Methods.

End Opt.

(** Printable ASCII. *)
Definition printable (c : N) : Prop := 32 <= c /\ c <= 126.

(** A font that renders every text but those with a NUL character. *)
Definition no_nul (s : pystr) : bool := negb (existsb (N.eqb 0) s).

(** An option on three variants, the first one current. *)
Definition three_levels : Opt.Switch :=
  Opt.mkSwitch (Some [lit "easy"; lit "normal"; lit "hard"])
               (Some (lit "easy")).
(* ================================================================== *)
(** * The codec round trip *)

Module JsonFacts.
Import Json.

(** Linear arithmetic with division and remainder by constants. *)
Ltac div_lia := zify; Z.to_euclidean_division_equations; lia.

Lemma lor_disjoint (a b k : N) :
  b < 2 ^ k -> N.lor (a * 2 ^ k) b = a * 2 ^ k + b.
Proof.
  intros Hb.
  assert (Hz : N.land (a * 2 ^ k) b = 0).
  { apply N.bits_inj; intros m.
    rewrite N.land_spec, N.bits_0.
    destruct (N.lt_ge_cases m k) as [Hm | Hm].
    - now rewrite N.mul_pow2_bits_low.
    - rewrite <- (N.mod_small b (2 ^ k)) by assumption.
      rewrite N.mod_pow2_bits_high by assumption.
      apply andb_false_r. }
  rewrite (N.add_nocarry_lxor _ _ Hz).
  symmetry; now apply N.lxor_lor.
Qed.

Lemma hex_val_digit (d : N) : d < 16 -> hex_val (hex_digit d) = Some d.
Proof.
  intros Hd.
  assert (Hc : d = 0 \/ d = 1 \/ d = 2 \/ d = 3 \/ d = 4 \/ d = 5 \/ d = 6
               \/ d = 7 \/ d = 8 \/ d = 9 \/ d = 10 \/ d = 11 \/ d = 12
               \/ d = 13 \/ d = 14 \/ d = 15) by lia.
  repeat (destruct Hc as [-> | Hc]; [reflexivity | ]).
  now subst.
Qed.

Lemma hex4_u_escape (n : N) :
  n < 65536 ->
  hex4 (hex_digit (n / 4096 mod 16)) (hex_digit (n / 256 mod 16))
       (hex_digit (n / 16 mod 16)) (hex_digit (n mod 16)) = Some n.
Proof.
  intros Hn. unfold hex4.
  rewrite !hex_val_digit by (apply N.mod_lt; discriminate).
  f_equal.
  div_lia.
Qed.

Lemma scanstring_u (h1 h2 h3 h4 uni : N) (tl : pystr) :
  hex4 h1 h2 h3 h4 = Some uni ->
  is_high uni = false ->
  scanstring (92 :: 117 :: h1 :: h2 :: h3 :: h4 :: tl)
  = cons_fst uni (scanstring tl).
Proof.
  intros Hh Hs.
  cbn -[hex4 is_high is_low]. now rewrite Hh, Hs.
Qed.

Lemma scanstring_pair (h1 h2 h3 h4 l1 l2 l3 l4 uni uni2 : N) (tl : pystr) :
  hex4 h1 h2 h3 h4 = Some uni ->
  is_high uni = true ->
  hex4 l1 l2 l3 l4 = Some uni2 ->
  is_low uni2 = true ->
  scanstring (92 :: 117 :: h1 :: h2 :: h3 :: h4
              :: 92 :: 117 :: l1 :: l2 :: l3 :: l4 :: tl)
  = cons_fst (65536 + N.lor (N.shiftl (uni - 55296) 10) (uni2 - 56320))
             (scanstring tl).
Proof.
  intros Hh Hs Hl Hs2.
  cbn -[hex4 is_high is_low N.lor N.shiftl N.add N.sub].
  now rewrite Hh, Hs, Hl, Hs2.
Qed.

(** The two halves [json.dumps] writes for a character above the BMP. *)
Lemma surrogate_halves (c : N) :
  65536 <= c -> c < 1114112 ->
  N.lor 55296 (N.land (N.shiftr (c - 65536) 10) 1023)
  = 55296 + (c - 65536) / 1024
  /\ N.lor 56320 (N.land (c - 65536) 1023) = 56320 + (c - 65536) mod 1024.
Proof.
  intros Hlo Hhi.
  change 1023 with (N.ones 10).
  rewrite !N.land_ones, N.shiftr_div_pow2.
  change (2 ^ 10) with 1024.
  assert (Hq : (c - 65536) / 1024 < 1024)
    by (apply N.Div0.div_lt_upper_bound; lia).
  rewrite (N.mod_small _ 1024 Hq).
  split.
  - change 55296 with (54 * 2 ^ 10) at 1. rewrite lor_disjoint; [reflexivity|].
    exact Hq.
  - change 56320 with (55 * 2 ^ 10) at 1. rewrite lor_disjoint; [reflexivity|].
    apply N.mod_lt; discriminate.
Qed.

Lemma surrogate_join (c : N) :
  65536 <= c -> c < 1114112 ->
  65536 + N.lor (N.shiftl (55296 + (c - 65536) / 1024 - 55296) 10)
                (56320 + (c - 65536) mod 1024 - 56320) = c.
Proof.
  intros Hlo Hhi.
  rewrite !(N.add_comm _ (_ / _)), !(N.add_comm _ (_ mod _)), !N.add_sub.
  rewrite N.shiftl_mul_pow2, lor_disjoint
    by (apply N.mod_lt; discriminate).
  change (2 ^ 10) with 1024.
  pose proof (N.Div0.div_mod (c - 65536) 1024) as H.
  revert H. generalize ((c - 65536) / 1024), ((c - 65536) mod 1024).
  intros q r H. lia.
Qed.

(** One encoded character is read back as that character. *)
Lemma scanstring_encode_char (c : N) (tl : pystr) :
  scalar c ->
  scanstring (encode_char c ++ tl) = cons_fst c (scanstring tl).
Proof.
  intros Hc. unfold encode_char.
  destruct (N.eqb_spec c 34) as [-> | N34]; [reflexivity|].
  destruct (N.eqb_spec c 92) as [-> | N92]; [reflexivity|].
  destruct (N.eqb_spec c 10) as [-> | _]; [reflexivity|].
  destruct (N.eqb_spec c 13) as [-> | _]; [reflexivity|].
  destruct (N.eqb_spec c 9) as [-> | _]; [reflexivity|].
  destruct (N.eqb_spec c 12) as [-> | _]; [reflexivity|].
  destruct (N.eqb_spec c 8) as [-> | _]; [reflexivity|].
  destruct ((32 <=? c) && (c <=? 126)) eqn:Hprint.
  - apply andb_true_iff in Hprint as [H32 _]. apply N.leb_le in H32.
    cbn [app scanstring].
    apply N.eqb_neq in N34, N92. rewrite N34, N92.
    assert (Hlt : (c <? 32) = false) by (apply N.ltb_ge; exact H32).
    now rewrite Hlt.
  - destruct (N.ltb_spec c 65536) as [Hbmp | Hastral].
    + unfold u_escape. cbn [app].
      apply scanstring_u; [now apply hex4_u_escape|].
      unfold is_high. destruct Hc as [Hc | [Hc _]].
      * assert (H : (55296 <=? c) = false) by (apply N.leb_gt; exact Hc).
        now rewrite H.
      * assert (H : (c <=? 56319) = false) by (apply N.leb_gt; lia).
        rewrite H. apply andb_false_r.
    + assert (Hmax : c < 1114112) by (destruct Hc as [Hc | [_ Hc]]; lia).
      destruct (surrogate_halves c Hastral Hmax) as [-> ->].
      assert (Hq : (c - 65536) / 1024 < 1024)
        by (apply N.Div0.div_lt_upper_bound; lia).
      assert (Hr : (c - 65536) mod 1024 < 1024)
        by (apply N.mod_lt; discriminate).
      cbv zeta. unfold u_escape. cbn [app].
      rewrite (scanstring_pair _ _ _ _ _ _ _ _
                 (55296 + (c - 65536) / 1024)
                 (56320 + (c - 65536) mod 1024)).
      * now rewrite surrogate_join.
      * apply hex4_u_escape; div_lia.
      * unfold is_high. apply andb_true_iff; split; apply N.leb_le; div_lia.
      * apply hex4_u_escape; div_lia.
      * unfold is_low. apply andb_true_iff; split; apply N.leb_le; div_lia.
Qed.

Lemma scanstring_encode (s rest : pystr) :
  text s ->
  scanstring (flat_map encode_char s ++ 34 :: rest) = Some (s, rest).
Proof.
  induction 1 as [| c s Hc _ IH]; [reflexivity|].
  cbn [flat_map]. rewrite <- app_assoc, scanstring_encode_char by exact Hc.
  now rewrite IH.
Qed.

Lemma scan_str_encode (s rest : pystr) :
  text s -> scan_str (encode_str s ++ rest) = Some (s, rest).
Proof.
  intros Hs. unfold encode_str, scan_str. cbn [app].
  change (34 =? 34) with true. cbv iota.
  rewrite <- app_assoc. now apply scanstring_encode.
Qed.

(** ** Integers *)

Lemma scan_digits_chars (d : Decimal.uint) (c : N) (tl : pystr) :
  digit_of c = None ->
  scan_digits (uint_chars d ++ c :: tl) = (d, c :: tl).
Proof.
  intros Hc.
  induction d; cbn [uint_chars app scan_digits];
    [now rewrite Hc | ..];
    match goal with
    | |- context [digit_of ?k] =>
        let v := eval vm_compute in (digit_of k) in
        change (digit_of k) with v; cbv iota
    end; now rewrite IHd.
Qed.

Lemma unorm_D0 (x y : Decimal.uint) :
  Decimal.unorm x = Decimal.D0 y -> y = Decimal.Nil.
Proof.
  induction x; cbn; intros H; try discriminate; auto.
  now injection H.
Qed.

(** [Pos.to_uint] writes no leading zero. *)
Lemma to_uint_head (p : positive) :
  match Pos.to_uint p with
  | Decimal.Nil | Decimal.D0 _ => False
  | _ => True
  end.
Proof.
  assert (Hn : Decimal.unorm (Pos.to_uint p) = Pos.to_uint p).
  { rewrite <- DecimalPos.Unsigned.to_of, DecimalPos.Unsigned.of_to.
    reflexivity. }
  pose proof (DecimalPos.Unsigned.to_uint_nonzero p) as Hz.
  destruct (Pos.to_uint p) as [| d | d | d | d | d | d | d | d | d | d];
    try exact I.
  - discriminate Hn.
  - apply unorm_D0 in Hn. subst d. now apply Hz.
Qed.

Lemma scan_unsigned_pos (p : positive) (c : N) (tl : pystr) :
  digit_of c = None ->
  scan_unsigned (uint_chars (Pos.to_uint p) ++ c :: tl)
  = Some (Zpos p, c :: tl).
Proof.
  intros Hc.
  pose proof (to_uint_head p) as Hh.
  pose proof (scan_digits_chars (Pos.to_uint p) c tl Hc) as Hd.
  pose proof (DecimalPos.Unsigned.of_to p) as Hv.
  destruct (Pos.to_uint p) as [| d | d | d | d | d | d | d | d | d | d];
    try contradiction;
    cbn [uint_chars app] in *; unfold scan_unsigned;
    match goal with
    | |- context [?k =? 48] => change (k =? 48) with false; cbv iota
    end;
    match goal with
    | |- context [digit_of ?k] =>
        let v := eval vm_compute in (digit_of k) in
        change (digit_of k) with v; cbv iota
    end;
    rewrite Hd; unfold N.of_uint; now rewrite Hv.
Qed.

Lemma uint_chars_head (p : positive) :
  exists k tl, uint_chars (Pos.to_uint p) = k :: tl
               /\ (k =? 45) = false /\ is_ws k = false.
Proof.
  pose proof (to_uint_head p) as Hh.
  destruct (Pos.to_uint p) as [| d | d | d | d | d | d | d | d | d | d];
    try contradiction; cbn [uint_chars]; eauto.
Qed.

Lemma scan_int_encode (z : Z) (c : N) (tl : pystr) :
  digit_of c = None ->
  scan_int (encode_int z ++ c :: tl) = Some (z, c :: tl).
Proof.
  intros Hc. destruct z as [| p | p]; cbn [encode_int].
  - reflexivity.
  - pose proof (scan_unsigned_pos p c tl Hc) as Hs.
    destruct (uint_chars_head p) as (k & l & Hk & H45 & _).
    rewrite Hk in *. cbn [app] in *. unfold scan_int. now rewrite H45.
  - cbn [app]. unfold scan_int. change (45 =? 45) with true. cbv iota.
    now rewrite scan_unsigned_pos.
Qed.

Lemma skip_ws_encode_int (z : Z) (tl : pystr) :
  skip_ws (encode_int z ++ tl) = encode_int z ++ tl.
Proof.
  destruct z as [| p | p]; cbn [encode_int]; try reflexivity.
  destruct (uint_chars_head p) as (k & l & Hk & _ & Hw).
  rewrite Hk. cbn [app skip_ws]. now rewrite Hw.
Qed.

(** ** Rows and arrays *)

Lemma encode_row_eq (i : Z) (u p : pystr) :
  encode_row (i, u, p)
  = 91 :: encode_int i ++ 44 :: 32 :: encode_str u ++ 44 :: 32 ::
      encode_str p ++ [93].
Proof.
  unfold encode_row, encode_array. cbn [join_items].
  repeat (rewrite <- app_assoc; cbn [app]). reflexivity.
Qed.

Lemma expect_lead (c : N) (lead tl : pystr) :
  is_ws c = false -> skip_ws lead = [] ->
  expect c (lead ++ c :: tl) = Some tl.
Proof.
  intros Hc Hlead. unfold expect.
  assert (Hskip : skip_ws (lead ++ c :: tl) = c :: tl).
  { induction lead as [| x lead IH].
    - cbn [app skip_ws]. now rewrite Hc.
    - cbn [app skip_ws] in *. destruct (is_ws x); [now apply IH | discriminate]. }
  now rewrite Hskip, N.eqb_refl.
Qed.

Lemma expect_here (c : N) (tl : pystr) :
  is_ws c = false -> expect c (c :: tl) = Some tl.
Proof. intros Hc. now apply (expect_lead c []). Qed.

Lemma skip_ws_space_str (s tl : pystr) :
  skip_ws (32 :: encode_str s ++ tl) = encode_str s ++ tl.
Proof. reflexivity. Qed.

Lemma scan_row_encode (r : Row) (lead rest : pystr) :
  text_row r ->
  skip_ws lead = [] ->
  scan_row (lead ++ encode_row r ++ rest) = Some (r, rest).
Proof.
  destruct r as [[i u] p]. intros [Hu Hp] Hlead.
  cbn [row_username row_password fst snd] in *.
  rewrite encode_row_eq. unfold scan_row.
  repeat progress (cbn [app]; rewrite <- ?app_assoc).
  rewrite (expect_lead 91 lead _ eq_refl Hlead).
  rewrite skip_ws_encode_int, scan_int_encode by reflexivity.
  rewrite (expect_here 44 _ eq_refl).
  rewrite skip_ws_space_str, scan_str_encode by exact Hu.
  rewrite (expect_here 44 _ eq_refl).
  rewrite skip_ws_space_str, scan_str_encode by exact Hp.
  now rewrite (expect_here 93 _ eq_refl).
Qed.

Lemma join_rows (r : Row) (rows : list Row) :
  join_items (List.map encode_row (r :: rows)) = encode_row r ++ more_rows rows.
Proof.
  revert r. induction rows as [| r' rows IH]; intros r.
  - cbn. now rewrite app_nil_r.
  - change (join_items (List.map encode_row (r :: r' :: rows)))
      with (encode_row r ++ 44 :: 32 :: join_items (List.map encode_row (r' :: rows))).
    rewrite IH. reflexivity.
Qed.

Lemma scan_more_step (r : Row) (tl : pystr) (fuel : nat) :
  text_row r ->
  scan_more (S fuel) (44 :: 32 :: encode_row r ++ tl)
  = match scan_more fuel tl with
    | Some (rs, s2) => Some (r :: rs, s2)
    | None => None
    end.
Proof.
  intros Hr. cbn [scan_more skip_ws].
  change (is_ws 44) with false. cbv iota.
  change (44 =? 93) with false. change (44 =? 44) with true. cbv iota.
  change (32 :: encode_row r ++ tl) with ([32] ++ encode_row r ++ tl).
  now rewrite (scan_row_encode r [32] tl Hr eq_refl).
Qed.

Lemma scan_more_rows (rows : list Row) (rest : pystr) (fuel : nat) :
  Forall text_row rows ->
  (List.length rows < fuel)%nat ->
  scan_more fuel (more_rows rows ++ 93 :: rest) = Some (rows, rest).
Proof.
  intros Hrows. revert fuel.
  induction Hrows as [| r rows Hr _ IH]; intros fuel Hfuel;
    (destruct fuel as [| fuel]; [inversion Hfuel|]).
  - reflexivity.
  - change (more_rows (r :: rows) ++ 93 :: rest)
      with (44 :: 32 :: (encode_row r ++ more_rows rows) ++ 93 :: rest).
    rewrite <- app_assoc, scan_more_step by exact Hr.
    now rewrite IH by (cbn [List.length] in Hfuel; lia).
Qed.

Lemma more_rows_length (rows : list Row) (rest : pystr) :
  (List.length rows < List.length (more_rows rows ++ 93%N :: rest))%nat.
Proof.
  induction rows as [| r rows IH]; cbn [more_rows flat_map List.length app].
  - lia.
  - rewrite <- app_assoc, length_app. fold (more_rows rows). lia.
Qed.

Lemma scan_rows_dumps (rows : list Row) (rest : pystr) :
  Forall text_row rows ->
  scan_rows (dumps rows ++ rest) = Some (rows, rest).
Proof.
  intros Hrows. unfold dumps, encode_array, scan_rows.
  destruct Hrows as [| r rows Hr Hrows]; [reflexivity|].
  rewrite join_rows. cbn [app].
  rewrite (expect_here 91 _ eq_refl), <- !app_assoc. cbn [app].
  remember (encode_row r ++ more_rows rows ++ 93 :: rest) as X eqn:HX.
  assert (Hs : exists t, skip_ws X = 91 :: t).
  { subst X. destruct r as [[i u] p]. rewrite encode_row_eq. cbn. eauto. }
  destruct Hs as [t Hs]. rewrite Hs.
  change (91 =? 93) with false. cbv iota. subst X.
  rewrite (scan_row_encode r [] _ Hr eq_refl : scan_row (encode_row r ++ _) = _).
  rewrite scan_more_rows by (exact Hrows || apply more_rows_length).
  reflexivity.
Qed.

Lemma loads_dumps (rows : list Row) :
  Forall text_row rows -> Json.loads (Json.dumps rows) = Some rows.
Proof.
  intros Hrows. unfold loads.
  rewrite <- (app_nil_r (dumps rows)).
  now rewrite scan_rows_dumps.
Qed.

End JsonFacts.

(* ================================================================== *)
(** * Queries: ordering and ranks *)

Lemma pystr_eqb_eq (a b : pystr) : pystr_eqb a b = true <-> a = b.
Proof.
  revert b. induction a as [| x a IH]; intros [| y b]; cbn; try easy.
  rewrite andb_true_iff, N.eqb_eq, IH. split.
  - now intros [-> ->].
  - now intros [= -> ->].
Qed.

Lemma pystr_eqb_refl (a : pystr) : pystr_eqb a a = true.
Proof. now apply pystr_eqb_eq. Qed.

Module SqlFacts.
Import Sql.

Local Open Scope Z_scope.

Lemma insert_desc_perm (x : Z * pystr) (l : list (Z * pystr)) :
  Permutation (x :: l) (insert_desc x l).
Proof.
  induction l as [| y l IH]; cbn [insert_desc]; [reflexivity|].
  destruct (fst y <=? fst x); [reflexivity|].
  rewrite perm_swap. now apply perm_skip.
Qed.

Lemma order_perm (l : list (Z * pystr)) : Permutation l (order_by_id_desc l).
Proof.
  induction l as [| x l IH]; cbn [order_by_id_desc]; [reflexivity|].
  rewrite <- insert_desc_perm. now apply perm_skip.
Qed.

Lemma insert_desc_sorted (x : Z * pystr) (l : list (Z * pystr)) :
  StronglySorted desc l -> StronglySorted desc (insert_desc x l).
Proof.
  induction 1 as [| y l Hs IH Hy]; cbn [insert_desc].
  - repeat constructor.
  - destruct (Z.leb_spec (fst y) (fst x)) as [Hle | Hgt].
    + constructor; [now constructor|].
      constructor; [exact Hle|].
      eapply Forall_impl; [|exact Hy]. unfold desc. intros; lia.
    + constructor; [exact IH|].
      eapply Permutation_Forall; [apply insert_desc_perm|].
      constructor; [unfold desc; lia | exact Hy].
Qed.

Lemma order_sorted (l : list (Z * pystr)) :
  StronglySorted desc (order_by_id_desc l).
Proof.
  induction l as [| x l IH]; cbn [order_by_id_desc]; [constructor|].
  now apply insert_desc_sorted.
Qed.

Lemma firstn_Forall {A} (P : A -> Prop) (n : nat) (l : list A) :
  Forall P l -> Forall P (firstn n l).
Proof.
  intros H. revert n.
  induction H as [| x l Hx _ IH]; intros [| n]; cbn [firstn]; auto.
Qed.

Lemma firstn_sorted (n : nat) (l : list (Z * pystr)) :
  StronglySorted desc l -> StronglySorted desc (firstn n l).
Proof.
  intros Hs. revert n.
  induction Hs as [| y l Hs IH Hy]; intros [| n]; cbn [firstn];
    try constructor; auto.
  now apply firstn_Forall.
Qed.

(** ** Row numbers *)

Lemma row_number_In (l : list (Z * pystr)) (k0 : Z) (i : Z) (u : pystr) (k : Z) :
  In (i, u, k) (row_number k0 l)
  <-> exists j, nth_error l j = Some (i, u) /\ k = k0 + Z.of_nat j.
Proof.
  revert k0. induction l as [| [i' u'] l IH]; intros k0; cbn [row_number In].
  - split; [easy|]. intros ([| j] & Hj & _); discriminate Hj.
  - rewrite IH. cbn [fst snd]. split.
    + intros [[= -> -> ->] | (j & Hj & ->)].
      * exists 0%nat. split; [reflexivity | lia].
      * exists (S j). split; [exact Hj | lia].
    + intros ([| j] & Hj & ->); cbn [nth_error] in Hj.
      * left. injection Hj as -> ->. f_equal. lia.
      * right. exists j. split; [exact Hj | lia].
Qed.

Lemma above_none (i : Z) (l : list (Z * pystr)) :
  Forall (fun e => fst e <= i) l -> above i l = 0%nat.
Proof.
  unfold above. induction 1 as [| e l He _ IH]; cbn [filter]; [reflexivity|].
  destruct (Z.ltb_spec i (fst e)); [lia | exact IH].
Qed.

(** In a list sorted by descending, pairwise distinct ids, an entry sits
    after exactly the entries with a larger id. *)
Lemma sorted_position (l : list (Z * pystr)) (j : nat) (e : Z * pystr) :
  StronglySorted desc l ->
  NoDup (List.map fst l) ->
  nth_error l j = Some e ->
  above (fst e) l = j.
Proof.
  intros Hs. revert j.
  induction Hs as [| a l Hs IH Ha]; intros j Hnd Hj.
  - destruct j; discriminate Hj.
  - cbn [List.map] in Hnd. apply NoDup_cons_iff in Hnd as [Hnotin Hnd].
    destruct j as [| j]; cbn [nth_error] in Hj.
    + injection Hj as ->. unfold above. cbn [filter].
      rewrite Z.ltb_irrefl. now apply above_none.
    + assert (Hin : In e l) by (eapply nth_error_In; eauto).
      assert (Hle : fst e <= fst a)
        by (apply (proj1 (Forall_forall _ _) Ha); exact Hin).
      assert (Hne : fst e <> fst a).
      { intros Heq. apply Hnotin. rewrite <- Heq. now apply in_map. }
      unfold above. cbn [filter].
      destruct (Z.ltb_spec (fst e) (fst a)); [|lia].
      cbn [List.length]. f_equal. now apply IH.
Qed.

Lemma above_perm (i : Z) (l l' : list (Z * pystr)) :
  Permutation l l' -> above i l = above i l'.
Proof.
  unfold above. induction 1 as [| x l l' _ IH | x y l | l l' l'' _ IH1 _ IH2];
    cbn [filter].
  - reflexivity.
  - destruct (i <? fst x); cbn [List.length]; now rewrite IH.
  - destruct (i <? fst x), (i <? fst y); reflexivity.
  - now rewrite IH1.
Qed.

Lemma above_project (i : Z) (t : list Row) :
  above i (List.map project t) = count_above i t.
Proof.
  unfold above, count_above.
  induction t as [| r t IH]; cbn [List.map filter]; [reflexivity|].
  cbn [project fst]. destruct (i <? row_id r); cbn [List.length]; now rewrite IH.
Qed.

Lemma map_fst_project (t : list Row) :
  List.map fst (List.map project t) = List.map row_id t.
Proof. rewrite map_map. reflexivity. Qed.

Lemma ranked_In (t : list Row) (i : Z) (u : pystr) (k : Z) :
  NoDup (List.map row_id t) ->
  In (i, u, k) (select_ranked t)
  <-> In (i, u) (List.map project t)
      /\ k = Z.of_nat (S (count_above i t)).
Proof.
  intros Hnd. unfold select_ranked.
  change (fun r : Row => (row_id r, row_username r)) with project.
  set (sorted := order_by_id_desc (List.map project t)).
  assert (Hperm : Permutation (List.map project t) sorted) by apply order_perm.
  assert (Hsorted : StronglySorted desc sorted) by apply order_sorted.
  assert (Hnd' : NoDup (List.map fst sorted)).
  { eapply Permutation_NoDup; [apply Permutation_map; exact Hperm|].
    now rewrite map_fst_project. }
  assert (Hpos : forall j, nth_error sorted j = Some (i, u) ->
                           count_above i t = j).
  { intros j Hj. rewrite <- above_project, (above_perm _ _ _ Hperm).
    exact (sorted_position sorted j (i, u) Hsorted Hnd' Hj). }
  rewrite row_number_In. split.
  - intros (j & Hj & ->). split.
    + eapply Permutation_in; [symmetry; exact Hperm|].
      eapply nth_error_In; eauto.
    + rewrite (Hpos j Hj). lia.
  - intros [Hin ->].
    apply (Permutation_in _ Hperm) in Hin.
    destruct (In_nth_error _ _ Hin) as [j Hj].
    exists j. split; [exact Hj|]. rewrite (Hpos j Hj). lia.
Qed.

Lemma In_project (t : list Row) (i : Z) (u : pystr) :
  In (i, u) (List.map project t) <-> exists p, In (i, u, p) t.
Proof.
  rewrite in_map_iff. split.
  - intros ([[i' u'] p] & Heq & Hin). unfold project, row_id, row_username in Heq. cbn [fst snd] in Heq.
    injection Heq as -> ->. now exists p.
  - intros [p Hin]. now exists (i, u, p).
Qed.

Lemma count_above_largest (t : list Row) (i : Z) :
  (forall r, In r t -> row_id r <= i) -> count_above i t = 0%nat.
Proof.
  intros Hmax. unfold count_above.
  induction t as [| r t IH]; cbn [filter]; [reflexivity|].
  destruct (Z.ltb_spec i (row_id r)) as [Hlt | _].
  - specialize (Hmax r (or_introl eq_refl)). lia.
  - apply IH. intros r' Hr'. apply Hmax. now right.
Qed.

Lemma count_above_all (t : list Row) (i : Z) :
  (forall r, In r t -> i < row_id r) -> count_above i t = List.length t.
Proof.
  intros Hmin. unfold count_above.
  induction t as [| r t IH]; cbn [filter]; [reflexivity|].
  destruct (Z.ltb_spec i (row_id r)) as [_ | Hge].
  - cbn [List.length]. f_equal. apply IH. intros r' Hr'. apply Hmin. now right.
  - specialize (Hmin r (or_introl eq_refl)). lia.
Qed.

Lemma count_above_smallest (t : list Row) (r : Row) :
  NoDup (List.map row_id t) ->
  In r t ->
  (forall r', In r' t -> row_id r <= row_id r') ->
  S (count_above (row_id r) t) = List.length t.
Proof.
  induction t as [| a t IH]; intros Hnd Hin Hmin; [destruct Hin|].
  cbn [List.map] in Hnd. apply NoDup_cons_iff in Hnd as [Hnotin Hnd].
  assert (Hrest : forall r', In r' t -> row_id r' <> row_id a).
  { intros r' Hr' Heq. apply Hnotin. rewrite <- Heq. now apply in_map. }
  destruct Hin as [-> | Hin].
  - change (count_above (row_id r) (r :: t))
      with (List.length (filter (fun x => row_id r <? row_id x) (r :: t))).
    cbn [filter]. rewrite Z.ltb_irrefl.
    fold (count_above (row_id r) t). cbn [List.length]. f_equal.
    apply count_above_all. intros r' Hr'.
    specialize (Hmin r' (or_intror Hr')). specialize (Hrest r' Hr'). lia.
  - change (count_above (row_id r) (a :: t))
      with (List.length (filter (fun x => row_id r <? row_id x) (a :: t))).
    cbn [filter].
    destruct (Z.ltb_spec (row_id r) (row_id a)) as [_ | Hge].
    + cbn [List.length]. f_equal. apply IH; auto.
      intros r' Hr'. apply Hmin. now right.
    + specialize (Hmin a (or_introl eq_refl)). specialize (Hrest r Hin). lia.
Qed.

Lemma sorted_app_le (a b : list (Z * pystr)) :
  StronglySorted desc (a ++ b) ->
  forall x y, In x a -> In y b -> fst y <= fst x.
Proof.
  induction a as [| h a IH]; intros Hs x y Hx Hy; [destruct Hx|].
  cbn [app] in Hs. inversion Hs as [| ? ? Hs' Hh]; subst.
  destruct Hx as [<- | Hx].
  - apply (proj1 (Forall_forall _ _) Hh). apply in_or_app. now right.
  - now apply (IH Hs' x y).
Qed.

Lemma row_number_ranks (l : list (Z * pystr)) (k : Z) :
  List.map snd (row_number k l)
  = List.map (fun j => k + Z.of_nat j) (seq 0 (List.length l)).
Proof.
  revert k. induction l as [| x l IH]; intros k; [reflexivity|].
  cbn [row_number List.map List.length seq snd]. f_equal; [lia|].
  rewrite IH, <- seq_shift, map_map.
  apply map_ext. intros j. lia.
Qed.

Lemma sorted_length (t : list Row) :
  List.length (order_by_id_desc (List.map project t)) = List.length t.
Proof.
  rewrite <- (Permutation_length (order_perm _)).
  apply length_map.
Qed.

End SqlFacts.

(* ================================================================== *)
(** * What the table can hold *)

Lemma scalarb_spec (c : N) : scalarb c = true <-> scalar c.
Proof.
  unfold scalarb, scalar.
  rewrite orb_true_iff, andb_true_iff, !N.ltb_lt, N.leb_le. tauto.
Qed.

Lemma textb_spec (s : pystr) : textb s = true <-> text s.
Proof.
  unfold textb, text. rewrite forallb_forall, Forall_forall.
  split; intros H c Hc; apply scalarb_spec; auto.
Qed.

Lemma int64b_spec (z : Z) : int64b z = true <-> int64 z.
Proof.
  unfold int64b, int64. rewrite andb_true_iff, Z.leb_le, Z.ltb_lt. tauto.
Qed.

Lemma storableb_spec (r : Row) : storableb r = true <-> storable r.
Proof.
  unfold storableb, storable, text_row.
  rewrite !andb_true_iff, int64b_spec, !textb_spec. tauto.
Qed.

Lemma insert_storable (r : Row) (t : list Row) :
  storable r -> Sql.insert r t = inr (t ++ [r]).
Proof.
  intros (Hi & Hu & Hp). unfold Sql.insert, Sql.bind_int, Sql.bind_str.
  apply int64b_spec in Hi. apply textb_spec in Hu, Hp.
  now rewrite Hi, Hu, Hp.
Qed.

Lemma insert_many_storable (data t : list Row) :
  Forall storable data -> Sql.insert_many data t = inr (t ++ data).
Proof.
  intros H. revert t.
  induction H as [| r data Hr _ IH]; intros t; cbn [Sql.insert_many].
  - now rewrite app_nil_r.
  - rewrite (insert_storable r t Hr), IH, <- app_assoc. reflexivity.
Qed.

Lemma table_of_Some (blob : pystr) (data : list Row) :
  table_of blob = Some data ->
  Json.loads blob = Some data /\ Forall storable data.
Proof.
  unfold table_of. destruct (Json.loads blob) as [d |]; [|discriminate].
  destruct (forallb storableb d) eqn:E; [|discriminate].
  intros [= ->]. split; [reflexivity|].
  apply Forall_forall. intros r Hr. apply storableb_spec.
  now apply (proj1 (forallb_forall _ _) E).
Qed.

Lemma table_of_dumps (t : list Row) :
  Forall storable t -> table_of (Json.dumps t) = Some t.
Proof.
  intros H. unfold table_of.
  rewrite JsonFacts.loads_dumps.
  - assert (E : forallb storableb t = true).
    { apply forallb_forall. intros r Hr. apply storableb_spec.
      now apply (proj1 (Forall_forall _ _) H). }
    now rewrite E.
  - eapply Forall_impl; [|exact H]. now intros r [_ Hr].
Qed.

(* ================================================================== *)
(** * The handlers, step by step *)

Section HandlerFacts.

Context {Chan : Type} {api : BotAPI Chan}.

Implicit Types (w : World Chan) (u p : pystr) (t : list Row).

(** Unfold the monad and the world updates; keep queries folded. *)
Ltac run :=
  cbv beta iota zeta delta
    [bind ret raise unmodelled gets modify try_except input
     bot_fetch bot_send_document bot_edit_message_media
     table create_table query query_str execute_insert executemany_insert
     with_login_id with_pointer with_chan with_call with_sent with_unsent
     with_stdin];
  cbn [login_id pointer chan calls outbox sends stdin rows_of
       global_data_chat global_data_message global_file_id fst snd].

Lemma pull_ok w (blob : pystr) (data : list Row) :
  fetch (chan w) (global_file_id (pointer w)) = Some blob ->
  table_of blob = Some data ->
  pull w = (Ok tt, pulled data w).
Proof.
  intros Hf Hl. unfold pull, get_data, pulled. run. rewrite Hf, Hl. run.
  rewrite insert_many_storable by (apply (table_of_Some blob); exact Hl).
  reflexivity.
Qed.

Lemma pull_fetch_fails w :
  fetch (chan w) (global_file_id (pointer w)) = None ->
  pull w
  = (Raise ChannelError,
     with_call (CallFetch (global_file_id (pointer w)))
       (with_login_id (rows_of (login_id w)) w)).
Proof.
  intros Hf. unfold pull, get_data. run. now rewrite Hf.
Qed.

Lemma update_data_run (messg : option Message) w t :
  login_id w = Some t ->
  update_data messg w = (Ok tt, update_world t w).
Proof.
  intros Ht. unfold update_data, update_world, update_call, Sql.select_all.
  run. rewrite Ht. run.
  destruct (edit_message_media _ _ _ _) as [[f ch] |];
    rewrite ?Ht; reflexivity.
Qed.

Lemma update_data_no_table (messg : option Message) w :
  login_id w = None ->
  update_data messg w = (Raise OperationalError, w).
Proof.
  intros Ht. unfold update_data. run. now rewrite Ht.
Qed.

Lemma update_world_frame t w :
  login_id (update_world t w) = login_id w
  /\ pointer (update_world t w) = pointer w
  /\ outbox (update_world t w) = outbox w
  /\ stdin (update_world t w) = stdin w
  /\ calls (update_world t w) = calls w ++ [update_call t w]
  /\ sends (update_world t w) = sends w.
Proof.
  unfold update_world.
  destruct (edit_message_media _ _ _ _) as [[f ch] |]; now repeat split.
Qed.

Lemma fetchone_username u t :
  Sql.fetchone (Sql.select_username_where_username u t)
  = if has_username u t then Some u else None.
Proof.
  unfold Sql.fetchone, Sql.select_username_where_username, has_username.
  induction t as [| r t IH]; cbn [filter List.map existsb hd_error]; [reflexivity|].
  destruct (pystr_eqb (row_username r) u) eqn:E; cbn [orb List.map hd_error].
  - apply pystr_eqb_eq in E. now rewrite E.
  - exact IH.
Qed.

(** [register] with both arguments given and a name of text, after a
    pull that succeeds. *)
Lemma register_run (messg : option Message) u p w
      (blob : pystr) (data : list Row) :
  fetch (chan w) (global_file_id (pointer w)) = Some blob ->
  table_of blob = Some data ->
  text u ->
  let t0 := rows_of (login_id w) ++ data in
  register messg (Some u) (Some p) w
  = if has_username u t0
    then (Ok (None, None), pulled data w)
    else
      match Sql.insert (user_id_of messg, u, p) t0 with
      | inl e => (Raise e, pulled data w)
      | inr t' =>
        (Ok (Some (top_n 10 t'), Some (rank_of u t')),
         update_world t' (with_login_id t' (pulled data w)))
      end.
Proof.
  intros Hf Hl Hu t0. unfold register.
  unfold bind at 1. rewrite (pull_ok w blob data Hf Hl).
  unfold bind at 1, ret at 1.
  unfold bind at 1, query_str at 1, bind at 1, table at 1.
  cbn [login_id pulled with_login_id]. fold t0.
  unfold Sql.bind_str. rewrite (proj2 (textb_spec u) Hu).
  unfold ret at 1. rewrite fetchone_username.
  destruct (has_username u t0); [reflexivity|].
  unfold bind at 1, ret at 1.
  unfold bind at 1, execute_insert at 1, bind at 1, table at 1.
  cbn [login_id pulled with_login_id]. fold t0. fold (user_id_of messg).
  destruct (Sql.insert (user_id_of messg, u, p) t0) as [e | t'];
    [reflexivity|].
  unfold modify at 1.
  unfold bind at 1. rewrite (update_data_run None _ t') by reflexivity.
  unfold query, bind, table, gets, ret.
  repeat first
    [ match goal with
      | |- context [login_id (update_world ?a ?b)] =>
          rewrite (proj1 (update_world_frame a b))
      end
    | progress cbn [login_id with_login_id] ].
  reflexivity.
Qed.

Lemma fetchone_id (x : Z) t :
  Sql.fetchone (Sql.select_id_where_id x t)
  = if existsb (fun r => (row_id r =? x)%Z) t then Some x else None.
Proof.
  unfold Sql.fetchone, Sql.select_id_where_id.
  induction t as [| r t IH]; cbn [filter List.map existsb hd_error]; [reflexivity|].
  destruct (Z.eqb_spec (row_id r) x) as [Heq | _]; cbn [orb List.map hd_error];
    [now rewrite Heq | exact IH].
Qed.

(** [delete] on an existing table, for a chat id within 64 bits. *)
Lemma delete_run (messg : Message) w t :
  login_id w = Some t ->
  int64 (chat_id messg) ->
  let x := chat_id messg in
  let w1 := with_sent x (lit "Deleting") w in
  delete messg w
  = if delivers (chan w) (sends w) x (lit "Deleting") then
      if existsb (fun r => (row_id r =? x)%Z) t then
        if delivers (chan w) (S (sends w)) x
                    (lit "Deleted user " ++ Json.encode_int x)
        then (Ok tt,
              with_login_id (Sql.delete_where_id x t)
                (with_sent x (lit "Deleted user " ++ Json.encode_int x) w1))
        else (Raise ChannelError, with_unsent w1)
      else
        if delivers (chan w) (S (sends w)) x (lit "NO SUCH USER IN DATABASE")
        then (Ok tt, with_sent x (lit "NO SUCH USER IN DATABASE") w1)
        else (Raise ChannelError, with_unsent w1)
    else (Raise ChannelError, with_unsent w).
Proof.
  intros Ht Hx x w1. unfold delete.
  unfold bind at 1, send_message at 1. fold x.
  destruct (delivers (chan w) (sends w) x (lit "Deleting")); [|reflexivity].
  fold w1. unfold bind at 1, table at 1.
  replace (login_id w1) with (Some t) by (symmetry; exact Ht).
  rewrite (proj2 (int64b_spec x) Hx), fetchone_id.
  destruct (existsb _ t).
  - unfold bind, send_message, modify.
    change (chan w1) with (chan w). change (sends w1) with (S (sends w)).
    destruct (delivers (chan w) (S (sends w)) x _); reflexivity.
  - unfold send_message.
    change (chan w1) with (chan w). change (sends w1) with (S (sends w)).
    destruct (delivers (chan w) (S (sends w)) x _); reflexivity.
Qed.

Lemma save_data_no_table (messg : Message) w :
  login_id w = None ->
  save_data messg w = (Raise OperationalError, w).
Proof.
  intros Ht. unfold save_data. run. now rewrite Ht.
Qed.

Lemma save_data_sent (messg : Message) w t (file_id : pystr) (ch : Chan) :
  login_id w = Some t ->
  send_document (chan w) (chat_id messg) (Json.dumps t) = Some (file_id, ch) ->
  delivered ch (sends w) (chat_id messg) (save_notes messg file_id) ->
  fst (save_data messg w) = Ok tt
  /\ pointer (snd (save_data messg w))
     = mkPointer (chat_id messg) (message_id messg + 1) file_id
  /\ login_id (snd (save_data messg w)) = login_id w
  /\ calls (snd (save_data messg w))
     = calls w
       ++ [CallSendDocument (chat_id messg) (Json.dumps t);
           CallEditMedia (chat_id messg) (message_id messg + 1)
                         (Json.dumps t)]
  /\ outbox (snd (save_data messg w))
     = outbox w
       ++ List.map (fun text => (chat_id messg, text))
                   (save_notes messg file_id)
  /\ chan (snd (save_data messg w))
     = match edit_message_media ch (chat_id messg) (message_id messg + 1)
               (Json.dumps t) with
       | Some (_, ch') => ch'
       | None => ch
       end.
Proof.
  intros Ht Hs (H1 & H2 & H3 & _).
  unfold save_data, Sql.select_all, send_message. run. rewrite Ht. run.
  rewrite Hs. run. rewrite H1. run. rewrite H2. run. rewrite H3. run.
  rewrite ?Ht. run.
  destruct (edit_message_media _ _ _ _) as [[f ch'] |];
    cbn [fst snd login_id pointer outbox calls chan List.map save_notes];
    rewrite <- ?app_assoc, ?Ht; now repeat split.
Qed.

(** [save_data] on an existing table, outcome by outcome. *)
Lemma save_data_run (messg : Message) w t :
  login_id w = Some t ->
  let x := chat_id messg in
  let blob := Json.dumps t in
  let w0 := with_call (CallSendDocument x blob) w in
  save_data messg w
  = match send_document (chan w) x blob with
    | None => (Raise ChannelError, w0)
    | Some (file_id, ch) =>
      let note1 := nth 0 (save_notes messg file_id) [] in
      let note2 := nth 1 (save_notes messg file_id) [] in
      let note3 := nth 2 (save_notes messg file_id) [] in
      let w1 := with_chan ch w0 in
      if delivers ch (sends w) x note1 then
        let w2 := with_sent x note1 w1 in
        if delivers ch (S (sends w)) x note2 then
          let w3 :=
            with_pointer (mkPointer x (message_id messg + 1) file_id)
                         (with_sent x note2 w2) in
          if delivers ch (S (S (sends w))) x note3 then
            let w4 :=
              with_call (CallEditMedia x (message_id messg + 1) blob)
                        (with_sent x note3 w3) in
            match edit_message_media ch x (message_id messg + 1) blob with
            | Some (_, ch') => (Ok tt, with_chan ch' w4)
            | None => (Ok tt, w4)
            end
          else (Raise ChannelError, with_unsent w3)
        else (Raise ChannelError, with_unsent w2)
      else (Raise ChannelError, with_unsent w1)
    end.
Proof.
  intros Ht x blob w0.
  destruct w as [lg ptr ch0 cl ob sn si]. cbn [login_id] in Ht. subst lg.
  subst x blob w0. unfold save_data, Sql.select_all, send_message. run.
  destruct (send_document ch0 _ _) as [[file_id ch] |]; [|reflexivity].
  run. cbn [save_notes nth].
  destruct (delivers ch sn _ _); [|reflexivity]. run.
  destruct (delivers ch (S sn) _ _); [|reflexivity]. run.
  destruct (delivers ch (S (S sn)) _ _); [|reflexivity]. run.
  destruct (edit_message_media _ _ _ _) as [[f ch'] |]; reflexivity.
Qed.

(** ** Frames: what a handler leaves alone *)

Lemma keeps_bind {A B} (m : M Chan A) (k : A -> M Chan B) :
  keeps_pointer m -> (forall a, keeps_pointer (k a)) -> keeps_pointer (bind m k).
Proof.
  intros Hm Hk w. unfold bind. specialize (Hm w).
  destruct (m w) as [[a | e |] w']; cbn [snd] in *; try exact Hm.
  now rewrite Hk.
Qed.

Lemma keeps_try (m : M Chan unit) :
  keeps_pointer m -> keeps_pointer (try_except m).
Proof.
  intros Hm w. unfold try_except. specialize (Hm w).
  destruct (m w) as [[a | e |] w']; exact Hm.
Qed.

Lemma keeps_ret {A} (a : A) : keeps_pointer (Chan := Chan) (ret a).
Proof. now intros w. Qed.

Lemma keeps_raise {A} (e : exn) : keeps_pointer (Chan := Chan) (A := A) (raise e).
Proof. now intros w. Qed.

Lemma keeps_unmodelled {A} : keeps_pointer (Chan := Chan) (A := A) unmodelled.
Proof. now intros w. Qed.

Lemma keeps_gets {A} (f : World Chan -> A) : keeps_pointer (gets f).
Proof. now intros w. Qed.

Lemma keeps_modify (f : World Chan -> World Chan) :
  (forall w, pointer (f w) = pointer w) -> keeps_pointer (modify f).
Proof. intros Hf w. apply Hf. Qed.

Lemma keeps_send_message (chat : Z) (text : pystr) :
  keeps_pointer (Chan := Chan) (send_message chat text).
Proof. intros w. unfold send_message. now destruct (delivers _ _ _ _). Qed.

Lemma keeps_input : keeps_pointer (Chan := Chan) input.
Proof. intros w. unfold input. now destruct (stdin w). Qed.

Lemma keeps_table_read : keeps_pointer (Chan := Chan) table.
Proof. intros w. unfold table. now destruct (login_id w). Qed.

Lemma keeps_fetch (file_id : pystr) : keeps_pointer (Chan := Chan) (bot_fetch file_id).
Proof. intros w. unfold bot_fetch. now destruct (fetch _ _). Qed.

Lemma keeps_edit (chat message : Z) (blob : pystr) :
  keeps_pointer (Chan := Chan) (bot_edit_message_media chat message blob).
Proof.
  intros w. unfold bot_edit_message_media.
  now destruct (edit_message_media _ _ _ _) as [[f ch] |].
Qed.

Lemma grows_bind {A B} (m : M Chan A) (k : A -> M Chan B) :
  grows m -> (forall a, grows (k a)) -> grows (bind m k).
Proof.
  intros Hm Hk w. unfold bind. destruct (Hm w) as [l1 H1].
  destruct (m w) as [[a | e |] w']; cbn [snd] in *; try (now exists l1).
  destruct (Hk a w') as [l2 H2]. exists (l1 ++ l2).
  now rewrite H2, H1, app_assoc.
Qed.

Lemma grows_keeps {A} (m : M Chan A) : keeps_table m -> grows m.
Proof. intros H w. exists []. now rewrite H, app_nil_r. Qed.

Lemma still_bind {A B} (m : M Chan A) (k : A -> M Chan B) :
  keeps_table m -> (forall a, keeps_table (k a)) -> keeps_table (bind m k).
Proof.
  intros Hm Hk w. unfold bind. specialize (Hm w).
  destruct (m w) as [[a | e |] w']; cbn [snd] in *; try exact Hm.
  now rewrite Hk.
Qed.

Lemma still_try (m : M Chan unit) :
  keeps_table m -> keeps_table (try_except m).
Proof.
  intros Hm w. unfold try_except. specialize (Hm w).
  destruct (m w) as [[a | e |] w']; exact Hm.
Qed.

Lemma still_send_message (chat : Z) (text : pystr) :
  keeps_table (Chan := Chan) (send_message chat text).
Proof. intros w. unfold send_message. now destruct (delivers _ _ _ _). Qed.

Lemma still_input : keeps_table (Chan := Chan) input.
Proof. intros w. unfold input. now destruct (stdin w). Qed.

Lemma still_table_read : keeps_table (Chan := Chan) table.
Proof.
  intros w. unfold table.
  destruct w as [[t |] ? ? ? ? ? ?]; reflexivity.
Qed.

Lemma still_edit (chat message : Z) (blob : pystr) :
  keeps_table (Chan := Chan) (bot_edit_message_media chat message blob).
Proof.
  intros w. unfold bot_edit_message_media.
  now destruct (edit_message_media _ _ _ _) as [[f ch] |].
Qed.

Lemma insert_inr (r : Row) (t t' : list Row) :
  Sql.insert r t = inr t' -> t' = t ++ [r].
Proof.
  unfold Sql.insert.
  destruct (Sql.bind_int _); [discriminate|].
  destruct (Sql.bind_str _); [discriminate|].
  destruct (Sql.bind_str _); [discriminate|]. now intros [= <-].
Qed.

Lemma grows_execute_insert (r : Row) :
  grows (Chan := Chan) (execute_insert r).
Proof.
  intros w. destruct w as [[t |] ? ? ? ? ? ?];
    unfold execute_insert, bind, table; cbn [login_id].
  - destruct (Sql.insert r t) as [e | t'] eqn:E.
    + exists []. cbn. now rewrite app_nil_r.
    + exists [r]. cbn. now apply insert_inr.
  - now exists [].
Qed.

End HandlerFacts.

Create HintDb frame.

#[export] Hint Resolve keeps_ret keeps_raise keeps_unmodelled keeps_gets
  keeps_send_message keeps_input keeps_table_read keeps_fetch keeps_edit
  : frame.
#[export] Hint Resolve still_send_message still_input still_table_read
  still_edit grows_execute_insert : frame.

(** Walk a handler, one [bind] or branch at a time. *)
Ltac frame :=
  repeat first
    [ progress auto with frame
    | match goal with
      | |- keeps_pointer (match ?e with _ => _ end) => destruct e
      | |- keeps_table (match ?e with _ => _ end) => destruct e
      | |- grows (match ?e with _ => _ end) => destruct e
      | |- keeps_pointer (if ?e then _ else _) => destruct e
      | |- keeps_table (if ?e then _ else _) => destruct e
      | |- keeps_pointer (bind _ _) => apply keeps_bind
      | |- keeps_table (bind _ _) => apply still_bind
      | |- grows (bind _ _) => apply grows_bind
      | |- keeps_pointer (try_except _) => apply keeps_try
      | |- keeps_table (try_except _) => apply still_try
      | |- keeps_pointer (modify _) => apply keeps_modify; intros ?; reflexivity
      | |- keeps_pointer _ => intros ?; reflexivity
      | |- keeps_table _ => intros ?; reflexivity
      | |- grows _ => apply grows_keeps
      | |- forall _, _ => intro
      end ].

Section Frames.

Context {Chan : Type} {api : BotAPI Chan}.

Lemma keeps_update_data (messg : option Message) :
  keeps_pointer (Chan := Chan) (update_data messg).
Proof. unfold update_data, query. frame. Qed.

Lemma still_update_data (messg : option Message) :
  keeps_table (Chan := Chan) (update_data messg).
Proof. unfold update_data, query. frame. Qed.

Lemma keeps_pull : keeps_pointer (Chan := Chan) pull.
Proof.
  unfold pull, create_table, get_data, executemany_insert. frame.
Qed.

Lemma keeps_register (messg : option Message) (username_in password_in : option pystr) :
  keeps_pointer (Chan := Chan) (register messg username_in password_in).
Proof.
  unfold register. apply keeps_bind; [apply keeps_pull|]. intros _.
  pose proof keeps_update_data.
  unfold query_str, query, execute_insert. frame.
Qed.

Lemma keeps_sighin (messg : Message) : keeps_pointer (Chan := Chan) (sighin messg).
Proof.
  unfold sighin. apply keeps_bind; [apply keeps_pull|]. intros _.
  unfold query_str. frame.
Qed.

Lemma keeps_delete (messg : Message) : keeps_pointer (Chan := Chan) (delete messg).
Proof. unfold delete. frame. Qed.

(** What follows the pull in [register] only appends, and what
    follows it in [sighin] leaves the table alone. *)
Lemma register_after_pull (messg : option Message)
      (username_in password_in : option pystr) (w0 : World Chan) :
  fst (pull w0) = Ok tt ->
  exists added,
    rows_of (login_id (snd (register messg username_in password_in w0)))
    = rows_of (login_id (snd (pull w0))) ++ added.
Proof.
  intros Hp. unfold register. unfold bind at 1.
  destruct (pull w0) as [[[] | e |] w1]; try discriminate Hp. cbn [snd].
  clear Hp. revert w1.
  match goal with
  | |- forall w1, exists added, rows_of (login_id (snd (?m w1))) = _ =>
      change (grows m)
  end.
  pose proof still_update_data.
  unfold query_str, query. frame.
Qed.

Lemma sighin_after_pull (messg : Message) (w0 : World Chan) :
  fst (pull w0) = Ok tt ->
  login_id (snd (sighin messg w0)) = login_id (snd (pull w0)).
Proof.
  intros Hp. unfold sighin. unfold bind at 1.
  destruct (pull w0) as [[[] | e |] w1]; try discriminate Hp. cbn [snd].
  clear Hp. revert w1.
  match goal with
  | |- forall w1, login_id (snd (?m w1)) = _ => change (keeps_table m)
  end.
  unfold query_str. frame.
Qed.

End Frames.

(* ================================================================== *)
(** * Counting names and ids *)

Lemma count_username_app (u : pystr) (a b : list Row) :
  count_username u (a ++ b) = (count_username u a + count_username u b)%nat.
Proof. unfold count_username. now rewrite filter_app, length_app. Qed.

Lemma has_username_count (u : pystr) (t : list Row) :
  if has_username u t then (1 <= count_username u t)%nat
  else count_username u t = 0%nat.
Proof.
  unfold has_username, count_username.
  induction t as [| r t IH]; cbn [existsb filter]; [reflexivity|].
  destruct (pystr_eqb (row_username r) u); cbn [orb List.length]; [lia|exact IH].
Qed.

Lemma has_username_false (u : pystr) (t : list Row) :
  (forall r, In r t -> row_username r <> u) -> has_username u t = false.
Proof.
  intros H. unfold has_username.
  destruct (existsb _ t) eqn:E; [|reflexivity].
  apply existsb_exists in E as (r & Hin & Heq).
  apply pystr_eqb_eq in Heq. now destruct (H r Hin).
Qed.

Lemma has_id_true (x : Z) (t : list Row) :
  (exists r, In r t /\ row_id r = x) ->
  existsb (fun r => (row_id r =? x)%Z) t = true.
Proof.
  intros (r & Hin & Hid). apply existsb_exists.
  exists r. split; [exact Hin|]. now apply Z.eqb_eq.
Qed.

Lemma has_id_false (x : Z) (t : list Row) :
  (forall r, In r t -> row_id r <> x) ->
  existsb (fun r => (row_id r =? x)%Z) t = false.
Proof.
  intros Hnone. destruct (existsb _ _) eqn:E; [|reflexivity].
  apply existsb_exists in E as (r & Hin & Heq). apply Z.eqb_eq in Heq.
  now destruct (Hnone r Hin).
Qed.

Lemma delete_where_id_none (x : Z) (t : list Row) :
  forall r, In r (Sql.delete_where_id x t) -> row_id r <> x.
Proof.
  intros r Hr Heq. apply filter_In in Hr as [_ Hne].
  apply Z.eqb_eq in Heq. now rewrite Heq in Hne.
Qed.


(* ================================================================== *)
(** * The claims *)

Section Claims.

Context {Chan : Type} {api : BotAPI Chan}.

Implicit Types (w : World Chan) (u p : pystr) (t : list Row).

(** C1 (amended).  Two [register] calls with the same username, a name
    of text, both given a password and both preceded by a pull that
    succeeds on the document of a table; the first call comes with a
    64-bit id and a password of text.  The first call returns, the
    second returns [(None, None)], and the table then holds at least
    one row with that name.  Their number is what the table and the
    first pulled snapshot held, or one if they held none, plus what the
    second pulled snapshot holds: the pull inserts the snapshot rows
    next to the rows already there.  It is exactly one when the table
    and the first snapshot together held the name at most once and the
    second snapshot does not hold it. *)
Theorem register_twice_conflict
        (m1 m2 : option Message) u (p1 p2 : pystr) w
        (b1 b2 : pystr) (d1 d2 : list Row) :
  text u -> text p1 -> int64 (user_id_of m1) ->
  fetch (chan w) (global_file_id (pointer w)) = Some b1 ->
  table_of b1 = Some d1 ->
  fetch (chan (snd (register m1 (Some u) (Some p1) w)))
        (global_file_id (pointer w)) = Some b2 ->
  table_of b2 = Some d2 ->
  let first := register m1 (Some u) (Some p1) w in
  let second := register m2 (Some u) (Some p2) (snd first) in
  let before :=
    (count_username u (rows_of (login_id w)) + count_username u d1)%nat in
  (exists r1, fst first = Ok r1)
  /\ fst second = Ok (None, None)
  /\ count_username u (rows_of (login_id (snd second)))
     = (Nat.max 1 before + count_username u d2)%nat
  /\ (1 <= count_username u (rows_of (login_id (snd second))))%nat
  /\ ((before <= 1)%nat -> count_username u d2 = 0%nat ->
      count_username u (rows_of (login_id (snd second))) = 1%nat).
Proof.
  intros Hu Hp1 Hid Hf1 Hl1 Hf2 Hl2 first second before.
  assert (Hfirst :
    (exists r1, fst first = Ok r1)
    /\ pointer (snd first) = pointer w
    /\ has_username u (rows_of (login_id (snd first))) = true
    /\ count_username u (rows_of (login_id (snd first))) = Nat.max 1 before).
  { subst first before.
    rewrite (register_run m1 u p1 w b1 d1 Hf1 Hl1 Hu). cbv zeta.
    rewrite <- count_username_app.
    pose proof (has_username_count u (rows_of (login_id w) ++ d1)) as Hc.
    destruct (has_username u (rows_of (login_id w) ++ d1)) eqn:Hhas;
      cbn [fst snd].
    - repeat split; eauto. cbn [login_id pulled with_login_id rows_of]. lia.
    - rewrite insert_storable by (split; [exact Hid | split; assumption]).
      cbn [fst snd].
      match goal with
      | |- context [update_world ?a ?b] =>
          destruct (update_world_frame a b) as (Ht & Hp & _)
      end.
      rewrite Ht, Hp. cbn [login_id pointer pulled with_login_id with_call rows_of].
      repeat split; eauto.
      + unfold has_username. rewrite existsb_app.
        cbn [existsb row_username fst snd].
        rewrite pystr_eqb_refl. now rewrite orb_true_r.
      + rewrite count_username_app, Hc. unfold count_username at 1.
        cbn [filter row_username fst snd]. rewrite pystr_eqb_refl. reflexivity. }
  destruct Hfirst as (Hret & Hptr & Hhas & Hcount).
  assert (Hsecond : second = (Ok (None, None), pulled d2 (snd first))).
  { subst second.
    rewrite (register_run m2 u p2 (snd first) b2 d2)
      by (rewrite ?Hptr; assumption).
    cbv zeta. unfold has_username in *. now rewrite existsb_app, Hhas. }
  rewrite Hsecond. cbn [fst snd login_id pulled with_login_id rows_of].
  rewrite count_username_app, Hcount.
  repeat split; auto; lia.
Qed.

(** C2.  A snapshot whose usernames and passwords are text is read back
    from its JSON document exactly as it was written; so is the empty
    snapshot. *)
Theorem snapshot_round_trip (s : list Row) :
  Forall text_row s ->
  Json.loads (Json.dumps s) = Some s /\ Json.loads (Json.dumps []) = Some [].
Proof.
  intros Hs. split; [now apply JsonFacts.loads_dumps | reflexivity].
Qed.

(** C3 (amended).  When the download succeeds and the document is that
    of a table, the pull inserts the rows of the snapshot after the rows
    the table already holds: nothing is cleared.  The table equals the
    snapshot when it held no row before.  [sighin] leaves the table as
    the pull made it; [register] may add rows after it. *)
Theorem pull_appends w (blob : pystr) (snapshot : list Row) :
  fetch (chan w) (global_file_id (pointer w)) = Some blob ->
  table_of blob = Some snapshot ->
  let before := rows_of (login_id w) in
  fst (pull w) = Ok tt
  /\ login_id (snd (pull w)) = Some (before ++ snapshot)
  /\ (before = [] -> login_id (snd (pull w)) = Some snapshot)
  /\ (forall messg,
        login_id (snd (sighin messg w)) = Some (before ++ snapshot))
  /\ (forall messg username_in password_in,
        exists added,
          rows_of (login_id (snd (register messg username_in password_in w)))
          = (before ++ snapshot) ++ added).
Proof.
  intros Hf Hl before.
  assert (Hp : fst (pull w) = Ok tt
               /\ login_id (snd (pull w)) = Some (before ++ snapshot))
    by (rewrite (pull_ok w blob snapshot Hf Hl); now split).
  destruct Hp as [Hok Ht]. repeat split; auto.
  - intros Hempty. now rewrite Ht, Hempty.
  - intros messg. now rewrite sighin_after_pull.
  - intros messg username_in password_in.
    destruct (register_after_pull messg username_in password_in w Hok)
      as [added Hadd].
    exists added. now rewrite Hadd, Ht.
Qed.

(** C4 (amended).  A push on an existing table that the channel refuses
    leaves the table as it is, and every operation is attempted once.
    - [update_data] whose edit is refused: the exception is caught
      inside the handler, the caller gets a normal return; pointer and
      channel are unchanged.
    - [save_data] whose document is refused: the exception reaches the
      caller; pointer and channel are unchanged.
    - [save_data] whose document is accepted and whose first or second
      notification is refused: the exception reaches the caller; the
      pointer is unchanged.
    - [save_data] whose third notification is refused: the exception
      reaches the caller, and the pointer already names the new
      document.
    - [save_data] whose follow-up edit is refused: the exception is
      caught, the caller gets a normal return, and the pointer names
      the new document. *)
Theorem push_failure_contained w (messg : option Message) (m : Message) t :
  login_id w = Some t ->
  let blob := Json.dumps t in
  let x := chat_id m in
  let sent := CallSendDocument x blob in
  (edit_message_media (chan w) (global_data_chat (pointer w))
     (global_data_message (pointer w)) blob = None ->
   fst (update_data messg w) = Ok tt
   /\ pointer (snd (update_data messg w)) = pointer w
   /\ login_id (snd (update_data messg w)) = login_id w
   /\ chan (snd (update_data messg w)) = chan w
   /\ calls (snd (update_data messg w)) = calls w ++ [update_call t w])
  /\ (send_document (chan w) x blob = None ->
      fst (save_data m w) = Raise ChannelError
      /\ pointer (snd (save_data m w)) = pointer w
      /\ login_id (snd (save_data m w)) = login_id w
      /\ chan (snd (save_data m w)) = chan w
      /\ calls (snd (save_data m w)) = calls w ++ [sent])
  /\ (forall file_id ch,
        send_document (chan w) x blob = Some (file_id, ch) ->
        let moved := mkPointer x (message_id m + 1) file_id in
        let note1 := lit "admin_id = " ++ Json.encode_int x in
        let note2 := lit "config_id = " ++ Json.encode_int (message_id m + 1) in
        let note3 := lit "file_id = " ++ file_id in
        (delivers ch (sends w) x note1 = false
         \/ (delivers ch (sends w) x note1 = true
             /\ delivers ch (S (sends w)) x note2 = false) ->
         fst (save_data m w) = Raise ChannelError
         /\ pointer (snd (save_data m w)) = pointer w
         /\ login_id (snd (save_data m w)) = login_id w
         /\ calls (snd (save_data m w)) = calls w ++ [sent])
        /\ (delivered ch (sends w) x [note1; note2] ->
            delivers ch (S (S (sends w))) x note3 = false ->
            fst (save_data m w) = Raise ChannelError
            /\ pointer (snd (save_data m w)) = moved
            /\ login_id (snd (save_data m w)) = login_id w
            /\ calls (snd (save_data m w)) = calls w ++ [sent])
        /\ (delivered ch (sends w) x [note1; note2; note3] ->
            edit_message_media ch x (message_id m + 1) blob = None ->
            fst (save_data m w) = Ok tt
            /\ pointer (snd (save_data m w)) = moved
            /\ login_id (snd (save_data m w)) = login_id w
            /\ chan (snd (save_data m w)) = ch
            /\ calls (snd (save_data m w))
               = calls w ++ [sent; CallEditMedia x (message_id m + 1) blob])).
Proof.
  intros Ht blob x sent. split; [|split].
  - intros He. rewrite (update_data_run messg w t Ht).
    unfold update_world. fold blob. rewrite He. now repeat split.
  - intros Hs. rewrite (save_data_run m w t Ht). cbv zeta.
    fold x blob. rewrite Hs. now repeat split.
  - intros file_id ch Hs moved note1 note2 note3.
    rewrite (save_data_run m w t Ht). cbv zeta. fold x blob. rewrite Hs.
    cbn [save_notes nth]. fold x note1 note2 note3.
    split; [|split].
    + intros [H1 | [H1 H2]]; rewrite H1; [|rewrite H2]; now repeat split.
    + intros (H1 & H2 & _) H3. rewrite H1, H2, H3. now repeat split.
    + intros (H1 & H2 & H3 & _) He. rewrite H1, H2, H3, He.
      cbn [fst snd pointer login_id chan calls with_call with_sent
           with_pointer with_chan].
      rewrite <- app_assoc. now repeat split.
Qed.

(** C5.  [update_data] forgets the document it has just pushed.  The
    table holds alice, the pointer names [doc0], the backup of the
    empty table.  The channel accepts the edit and stores the new
    document as [doc1]; [update_data] returns normally, and the pointer
    still names [doc0], which still holds the old backup.  [save_data]
    in the same state records the id it is given. *)
Theorem update_leaves_stale_pointer :
  let w0 := sim_world [alice] [] true true true in
  let w1 := snd (update_data None w0) in
  fst (update_data None w0) = Ok tt
  /\ edit_message_media (chan w0) (global_data_chat (pointer w0))
       (global_data_message (pointer w0)) (Json.dumps [alice])
     = Some (lit "doc1", chan w1)
  /\ fetch (chan w1) (lit "doc1") = Some (Json.dumps [alice])
  /\ global_file_id (pointer w1) = lit "doc0"
  /\ fetch (chan w1) (global_file_id (pointer w1)) = Some (Json.dumps [])
  /\ fst (save_data (mkMessage 42 7) w0) = Ok tt
  /\ global_file_id (pointer (snd (save_data (mkMessage 42 7) w0)))
     = lit "doc1".
Proof.
  vm_compute. repeat split.
Qed.

(** C6.  [top_n k] has at most [k] entries and their ids never increase
    from one entry to a later one; on the table alice 1, bob 5, carol 3
    the top three are bob, carol, alice.  The entries are taken from
    the table: there are [k] of them, or as many as the table has rows
    if that is fewer, the table is made of the entries returned and the
    entries left out, and no entry left out has a larger id than one
    returned. *)
Theorem top_n_ordered t (k : nat) :
  (List.length (top_n k t) <= k)%nat
  /\ StronglySorted desc (top_n k t)
  /\ top_n 3 [alice; bob; carol]
     = [(5%Z, lit "bob"); (3%Z, lit "carol"); (1%Z, lit "alice")]
  /\ List.length (top_n k t) = Nat.min k (List.length t)
  /\ (exists rest,
        Permutation (List.map project t) (top_n k t ++ rest)
        /\ forall a b, In a (top_n k t) -> In b rest -> (fst b <= fst a)%Z).
Proof.
  unfold top_n, Sql.select_top.
  change (fun r : Row => (row_id r, row_username r)) with project.
  split; [|split; [|split; [|split]]].
  - apply firstn_le_length.
  - apply SqlFacts.firstn_sorted, SqlFacts.order_sorted.
  - reflexivity.
  - now rewrite length_firstn, SqlFacts.sorted_length.
  - exists (skipn k (Sql.order_by_id_desc (List.map project t))). split.
    + rewrite firstn_skipn. apply SqlFacts.order_perm.
    + apply SqlFacts.sorted_app_le. rewrite firstn_skipn.
      apply SqlFacts.order_sorted.
Qed.

(** C7.  In a table whose ids are pairwise distinct, [rank_of u] lists
    exactly the rows named [u], each with its position in the order of
    descending ids, counted from 1: one more than the number of rows
    with a larger id.  The row with the largest id has rank 1, the row
    with the smallest id has rank N, and a name in no row has no
    entry. *)
Theorem rank_of_position t :
  NoDup (List.map row_id t) ->
  (forall u i n k,
      In (i, n, k) (rank_of u t)
      <-> n = u /\ (exists p, In (i, u, p) t)
          /\ k = Z.of_nat (S (count_above i t)))
  /\ (forall r, In r t ->
        (forall r', In r' t -> (row_id r' <= row_id r)%Z) ->
        In (row_id r, row_username r, 1%Z) (rank_of (row_username r) t))
  /\ (forall r, In r t ->
        (forall r', In r' t -> (row_id r <= row_id r')%Z) ->
        In (row_id r, row_username r, Z.of_nat (List.length t))
           (rank_of (row_username r) t))
  /\ (forall u, (forall r, In r t -> row_username r <> u) -> rank_of u t = []).
Proof.
  intros Hnd.
  assert (Hiff : forall u i n k,
      In (i, n, k) (rank_of u t)
      <-> n = u /\ (exists p, In (i, u, p) t)
          /\ k = Z.of_nat (S (count_above i t))).
  { intros u i n k. unfold rank_of. rewrite filter_In. cbn [fst snd].
    rewrite pystr_eqb_eq, (SqlFacts.ranked_In t i n k Hnd), SqlFacts.In_project.
    split.
    - intros [[Hin ->] ->]. auto.
    - intros (-> & Hin & ->). auto. }
  split; [exact Hiff|]. split; [|split].
  - intros r Hin Hmax. apply Hiff. destruct r as [[i n] p].
    cbn [row_id row_username fst snd] in *. repeat split; eauto.
    rewrite (SqlFacts.count_above_largest t i); [reflexivity|].
    intros r' Hr'. apply (Hmax r' Hr').
  - intros r Hin Hmin. apply Hiff.
    rewrite <- (SqlFacts.count_above_smallest t r Hnd Hin Hmin).
    destruct r as [[i n] p]. cbn [row_id row_username fst snd] in *.
    repeat split; eauto.
  - intros u Hnone. destruct (rank_of u t) as [| [[i n] k] l] eqn:E; [reflexivity|].
    assert (Hin : In (i, n, k) (rank_of u t)) by (rewrite E; now left).
    apply Hiff in Hin as (-> & [p Hp] & _).
    now destruct (Hnone (i, u, p) Hp).
Qed.



(** C10.  [register] with a message that has no chat id behaves, for
    every table, channel and input, as [register] with a message whose
    chat id is 0.  After a pull that succeeds on the document of a
    table, for a name of text, the outcome of the duplicate check is
    the same with and without a chat id; with a name in no row and a
    password of text, it inserts the row with id 0 and returns the top
    ten and the rank entries of that name over the table with the new
    row. *)
Theorem register_without_chat_id
        (m : Message) u p w (blob : pystr) (data : list Row) :
  fetch (chan w) (global_file_id (pointer w)) = Some blob ->
  table_of blob = Some data ->
  text u ->
  (forall username_in password_in message_id,
      register None username_in password_in w
      = register (Some (mkMessage 0 message_id)) username_in password_in w)
  /\ (fst (register None (Some u) (Some p) w) = Ok (None, None)
      <-> fst (register (Some m) (Some u) (Some p) w) = Ok (None, None))
  /\ (text p ->
      (forall r, In r (rows_of (login_id w) ++ data) -> row_username r <> u) ->
      let t' := (rows_of (login_id w) ++ data) ++ [(0%Z, u, p)] in
      fst (register None (Some u) (Some p) w)
      = Ok (Some (top_n 10 t'), Some (rank_of u t'))
      /\ login_id (snd (register None (Some u) (Some p) w)) = Some t').
Proof.
  intros Hf Hl Hu. split; [reflexivity|].
  rewrite !(register_run _ u p w blob data Hf Hl Hu). cbv zeta. split.
  - destruct (has_username u (rows_of (login_id w) ++ data)); cbn [fst]; [tauto|].
    destruct (Sql.insert (user_id_of None, u, p) _),
             (Sql.insert (user_id_of (Some m), u, p) _);
      cbn [fst]; split; discriminate.
  - intros Hp Hnone. rewrite (has_username_false u _ Hnone).
    cbn [user_id_of].
    rewrite insert_storable
      by (split; [apply int64b_spec; reflexivity | split; assumption]).
    cbn [fst snd]. split; [reflexivity|].
    match goal with
    | |- context [update_world ?a ?b] =>
        rewrite (proj1 (update_world_frame a b))
    end.
    reflexivity.
Qed.

End Claims.

(* ================================================================== *)
(** * The claims on the concrete channel *)

(** Side conditions on concrete values, by evaluation. *)
Ltac is_text := apply textb_spec; reflexivity.
Ltac is_int64 := apply int64b_spec; reflexivity.
Ltac is_delivered := cbn; repeat split.

(** [register_twice_conflict] on an empty table with an empty backup:
    bob is inserted once and refused once. *)
Lemma register_twice_witness :
  let w0 := sim_world [] [] true true true in
  let first := register (Some (mkMessage 42 7)) (Some (lit "bob"))
                        (Some (lit "pw2")) w0 in
  let second := register (Some (mkMessage 42 8)) (Some (lit "bob"))
                         (Some (lit "pw9")) (snd first) in
  fetch (chan w0) (global_file_id (pointer w0)) = Some (Json.dumps [])
  /\ table_of (Json.dumps []) = Some []
  /\ fst second = Ok (None, None)
  /\ count_username (lit "bob") (rows_of (login_id (snd second))) = 1%nat.
Proof.
  intros w0 first second.
  destruct (register_twice_conflict (api := sim_api)
              (Some (mkMessage 42 7)) (Some (mkMessage 42 8))
              (lit "bob") (lit "pw2") (lit "pw9") w0
              (Json.dumps []) (Json.dumps []) [] []
              ltac:(is_text) ltac:(is_text) ltac:(is_int64)
              ltac:(reflexivity) ltac:(reflexivity)
              ltac:(vm_compute; reflexivity) ltac:(reflexivity))
    as (_ & Hconflict & _ & _ & Hone).
  split; [reflexivity|]. split; [reflexivity|]. split; [exact Hconflict|].
  apply Hone; [vm_compute; lia | reflexivity].
Defined.

(** C1 as stated fails: with bob already in the backup and an empty
    table, both calls are refused, and the two pulls leave two rows
    named bob. *)
Lemma register_twice_counterexample :
  let w0 := sim_world [] [bob] true true true in
  let first := register (Some (mkMessage 42 7)) (Some (lit "bob"))
                        (Some (lit "pw2")) w0 in
  let second := register (Some (mkMessage 42 8)) (Some (lit "bob"))
                         (Some (lit "pw9")) (snd first) in
  fst second = Ok (None, None)
  /\ login_id (snd second) = Some [bob; bob]
  /\ count_username (lit "bob") (rows_of (login_id (snd second))) <> 1%nat.
Proof.
  vm_compute. repeat split. discriminate.
Qed.

(** [snapshot_round_trip] on the table of the scenario. *)
Lemma snapshot_round_trip_witness :
  Forall text_row [alice; bob; carol]
  /\ Json.loads (Json.dumps [alice; bob; carol]) = Some [alice; bob; carol].
Proof.
  assert (H : Forall text_row [alice; bob; carol]).
  { repeat constructor; unfold text, scalar;
      repeat (constructor; [left; reflexivity|]); constructor. }
  split; [exact H | exact (proj1 (snapshot_round_trip _ H))].
Defined.

(** Outside text the codec is not the identity: two code points that
    happen to be a surrogate pair come back as one character. *)
Example surrogates_are_joined :
  Json.loads (Json.dumps [(1%Z, [55357; 56832], lit "pw")])
  = Some [(1%Z, [128512], lit "pw")].
Proof. reflexivity. Qed.

(** [pull_appends] on an empty table. *)
Lemma pull_appends_witness :
  let w0 := sim_world [] [alice; bob] true true true in
  table_of (Json.dumps [alice; bob]) = Some [alice; bob]
  /\ login_id (snd (pull w0)) = Some [alice; bob].
Proof.
  intros w0.
  destruct (pull_appends (api := sim_api) w0 (Json.dumps [alice; bob])
              [alice; bob]
              ltac:(reflexivity) ltac:(reflexivity)) as (_ & _ & Hempty & _).
  split; [reflexivity | exact (Hempty eq_refl)].
Defined.

(** C3 as stated fails: a table that holds alice, pulled from a backup
    that holds bob, holds both afterwards. *)
Lemma pull_replaces_counterexample :
  let w0 := sim_world [alice] [bob] true true true in
  fetch (chan w0) (global_file_id (pointer w0)) = Some (Json.dumps [bob])
  /\ Json.loads (Json.dumps [bob]) = Some [bob]
  /\ fst (pull w0) = Ok tt
  /\ login_id (snd (pull w0)) = Some [alice; bob]
  /\ login_id (snd (pull w0)) <> Some [bob].
Proof.
  vm_compute. repeat split. discriminate.
Qed.

(** [push_failure_contained] on a channel that refuses edits: an update
    changes nothing, and a save has moved the pointer to the document
    it sent. *)
Lemma push_failure_witness :
  let w0 := sim_world [alice] [] true true false in
  (fst (update_data None w0) = Ok tt
   /\ pointer (snd (update_data None w0)) = sim_pointer
   /\ login_id (snd (update_data None w0)) = Some [alice])
  /\ (fst (save_data (mkMessage 42 7) w0) = Ok tt
      /\ pointer (snd (save_data (mkMessage 42 7) w0))
         = mkPointer 42 8 (lit "doc1")
      /\ login_id (snd (save_data (mkMessage 42 7) w0)) = Some [alice]).
Proof.
  intros w0.
  destruct (push_failure_contained (api := sim_api) w0 None (mkMessage 42 7)
              [alice] ltac:(reflexivity))
    as (Hupdate & _ & Hsave).
  destruct (Hupdate ltac:(reflexivity)) as (Hok & Hp & Ht & _).
  destruct (Hsave (lit "doc1") (sim_store (Json.dumps [alice]) (chan w0))
                  ltac:(reflexivity))
    as (_ & _ & Hedit).
  destruct (Hedit ltac:(is_delivered) ltac:(reflexivity))
    as (Hok' & Hp' & Ht' & _).
  repeat split; assumption.
Defined.

(** C4 as stated fails.  The edit is refused: [update_data] returns as
    if nothing had happened, and [save_data], which returns as well,
    has overwritten the pointer. *)
Lemma update_failure_counterexample :
  let w0 := sim_world [alice] [] true true false in
  edit_message_media (chan w0) (global_data_chat (pointer w0))
    (global_data_message (pointer w0)) (Json.dumps [alice]) = None
  /\ fst (update_data None w0) = Ok tt
  /\ (forall e, fst (update_data None w0) <> Raise e)
  /\ calls (snd (save_data (mkMessage 42 7) w0))
     = [CallSendDocument 42 (Json.dumps [alice]);
        CallEditMedia 42 8 (Json.dumps [alice])]
  /\ edit_message_media (sim_store (Json.dumps [alice]) (chan w0)) 42 8
       (Json.dumps [alice]) = None
  /\ fst (save_data (mkMessage 42 7) w0) = Ok tt
  /\ pointer (snd (save_data (mkMessage 42 7) w0)) <> pointer w0.
Proof.
  vm_compute. repeat split; discriminate.
Qed.

(** [rank_of_position] on the scenario: carol is second. *)
Lemma rank_of_position_witness :
  NoDup (List.map row_id [alice; bob; carol])
  /\ In (3%Z, lit "carol", 2%Z) (rank_of (lit "carol") [alice; bob; carol])
  /\ rank_of (lit "carol") [alice; bob; carol] = [(3%Z, lit "carol", 2%Z)].
Proof.
  assert (H : NoDup (List.map row_id [alice; bob; carol])).
  { repeat constructor; cbn; intuition discriminate. }
  split; [exact H|]. split; [|reflexivity].
  apply (proj1 (rank_of_position _ H)).
  split; [reflexivity|]. split; [|reflexivity].
  exists (lit "pw3"). right. right. now left.
Defined.



(** [register_without_chat_id] from the command line on an empty
    table. *)
Lemma register_without_chat_id_witness :
  let w0 := sim_world [] [alice] true true true in
  table_of (Json.dumps [alice]) = Some [alice]
  /\ fst (register None (Some (lit "dave")) (Some (lit "pw4")) w0)
     = Ok (Some [(1%Z, lit "alice"); (0%Z, lit "dave")],
           Some [(0%Z, lit "dave", 2%Z)])
  /\ login_id (snd (register None (Some (lit "dave")) (Some (lit "pw4")) w0))
     = Some [alice; (0%Z, lit "dave", lit "pw4")].
Proof.
  intros w0.
  assert (Hnone : forall r, In r (rows_of (login_id w0) ++ [alice]) ->
                            row_username r <> lit "dave").
  { intros r [<- | []]. discriminate. }
  destruct (register_without_chat_id (api := sim_api) (mkMessage 42 7)
              (lit "dave") (lit "pw4")
              w0 (Json.dumps [alice]) [alice]
              ltac:(reflexivity) ltac:(reflexivity) ltac:(is_text))
    as (_ & _ & Hrun).
  split; [reflexivity|].
  exact (Hrun ltac:(is_text) Hnone).
Defined.

(* ================================================================== *)
(** * More on the handlers *)

Section HandlerExtras.

Context {Chan : Type} {api : BotAPI Chan}.

Implicit Types (w : World Chan) (u p : pystr) (t : list Row).

Lemma has_username_true u t :
  (exists r, In r t /\ row_username r = u) -> has_username u t = true.
Proof.
  intros (r & Hin & Hu). apply existsb_exists.
  exists r. split; [exact Hin|]. now apply pystr_eqb_eq.
Qed.

Lemma bind_str_text u : text u -> Sql.bind_str u = None.
Proof.
  intros Hu. unfold Sql.bind_str. now rewrite (proj2 (textb_spec u) Hu).
Qed.

Lemma bind_str_other u : ~ text u -> Sql.bind_str u = Some UnicodeEncodeError.
Proof.
  intros Hu. unfold Sql.bind_str. destruct (textb u) eqn:E; [|reflexivity].
  now apply textb_spec in E.
Qed.

Lemma bind_int_other (z : Z) : ~ int64 z -> Sql.bind_int z = Some OverflowError.
Proof.
  intros Hz. unfold Sql.bind_int. destruct (int64b z) eqn:E; [|reflexivity].
  now apply int64b_spec in E.
Qed.

(** The duplicate check of [register] on the table [t0]. *)
Lemma register_check (w1 : World Chan) u t0 :
  login_id w1 = Some t0 ->
  text u ->
  query_str u (fun t =>
    Sql.fetchone (Sql.select_username_where_username u t)) w1
  = (Ok (if has_username u t0 then Some u else None), w1).
Proof.
  intros Ht Hu. unfold query_str, bind, table. rewrite Ht.
  rewrite (bind_str_text u Hu). unfold ret. now rewrite fetchone_username.
Qed.

(** A pull whose download raises stops [register] and [sighin] at once:
    the exception reaches the caller, the download was the only call to
    the channel, and the rows of the table, the pointer, the
    notifications and the pending input are as before.  The table has
    been created if it did not exist. *)
Theorem pull_failure_aborts w (messg : option Message) (m : Message)
        (username_in password_in : option pystr) :
  fetch (chan w) (global_file_id (pointer w)) = None ->
  let aborted :=
    with_call (CallFetch (global_file_id (pointer w)))
              (with_login_id (rows_of (login_id w)) w) in
  register messg username_in password_in w = (Raise ChannelError, aborted)
  /\ sighin m w = (Raise ChannelError, aborted)
  /\ login_id aborted = Some (rows_of (login_id w))
  /\ pointer aborted = pointer w
  /\ outbox aborted = outbox w
  /\ stdin aborted = stdin w
  /\ calls aborted = calls w ++ [CallFetch (global_file_id (pointer w))].
Proof.
  intros Hf aborted.
  unfold register, sighin. unfold bind at 1. rewrite (pull_fetch_fails w Hf).
  unfold bind at 1. rewrite (pull_fetch_fails w Hf). now repeat split.
Qed.

(** [register] with a name that is taken, after a pull that succeeds:
    nothing is pushed (the download is the only call to the channel),
    no notification is sent, and no line of input is read, even when no
    password was passed. *)
Theorem register_conflict_is_quiet w (messg : option Message) u
        (password_in : option pystr) (blob : pystr) (data : list Row) :
  fetch (chan w) (global_file_id (pointer w)) = Some blob ->
  table_of blob = Some data ->
  text u ->
  (exists r, In r (rows_of (login_id w) ++ data) /\ row_username r = u) ->
  register messg (Some u) password_in w = (Ok (None, None), pulled data w)
  /\ calls (pulled data w) = calls w ++ [CallFetch (global_file_id (pointer w))]
  /\ outbox (pulled data w) = outbox w
  /\ stdin (pulled data w) = stdin w.
Proof.
  intros Hf Hl Hu Hex. split; [|now repeat split]. unfold register.
  unfold bind at 1. rewrite (pull_ok w blob data Hf Hl).
  unfold bind at 1, ret at 1. unfold bind at 1.
  rewrite (register_check _ u (rows_of (login_id w) ++ data))
    by (reflexivity || assumption).
  now rewrite (has_username_true u _ Hex).
Qed.

(** [register] with a new name of text, a password of text and a
    64-bit id, after a pull that succeeds: the row is inserted last,
    and the table is pushed exactly once, as the JSON document of the
    table with the new row, to the message the pointer names.  The call
    returns its results whether the channel accepts the edit or not;
    what was pushed parses back to that table when the table holds
    text. *)
Theorem register_success_pushes_once w (messg : option Message) u p
        (blob : pystr) (data : list Row) :
  fetch (chan w) (global_file_id (pointer w)) = Some blob ->
  table_of blob = Some data ->
  text u -> text p -> int64 (user_id_of messg) ->
  (forall r, In r (rows_of (login_id w) ++ data) -> row_username r <> u) ->
  let t' := (rows_of (login_id w) ++ data) ++ [(user_id_of messg, u, p)] in
  let after := snd (register messg (Some u) (Some p) w) in
  fst (register messg (Some u) (Some p) w)
  = Ok (Some (top_n 10 t'), Some (rank_of u t'))
  /\ login_id after = Some t'
  /\ calls after
     = calls w ++ [CallFetch (global_file_id (pointer w));
                   CallEditMedia (global_data_chat (pointer w))
                                 (global_data_message (pointer w))
                                 (Json.dumps t')]
  /\ outbox after = outbox w
  /\ (Forall text_row t' -> Json.loads (Json.dumps t') = Some t').
Proof.
  intros Hf Hl Hu Hp Hid Hnew t' after. subst after t'.
  rewrite (register_run messg u p w blob data Hf Hl Hu). cbv zeta.
  rewrite (has_username_false u _ Hnew).
  rewrite insert_storable by (split; [exact Hid | split; assumption]).
  cbn [fst snd].
  match goal with
  | |- context [update_world ?a ?b] =>
      destruct (update_world_frame a b) as (Ht & _ & Ho & _ & Hc & _)
  end.
  rewrite Ht, Ho, Hc.
  cbn [login_id calls outbox pulled with_login_id with_call].
  unfold update_call. cbn [login_id pointer pulled with_login_id with_call].
  split; [reflexivity|]. split; [reflexivity|].
  split; [now rewrite <- (app_assoc (calls w))|].
  split; [reflexivity|]. apply JsonFacts.loads_dumps.
Qed.

Lemma register_console_run (messg : option Message) u p (rest : list pystr) w
      (blob : pystr) (data : list Row) :
  fetch (chan w) (global_file_id (pointer w)) = Some blob ->
  table_of blob = Some data ->
  text u ->
  stdin w = u :: p :: rest ->
  let t0 := rows_of (login_id w) ++ data in
  register messg None None w
  = if has_username u t0
    then (Ok (None, None), with_stdin (p :: rest) (pulled data w))
    else
      match Sql.insert (user_id_of messg, u, p) t0 with
      | inl e => (Raise e, with_stdin rest (pulled data w))
      | inr t' =>
        (Ok (Some (top_n 10 t'), Some (rank_of u t')),
         update_world t' (with_login_id t' (with_stdin rest (pulled data w))))
      end.
Proof.
  intros Hf Hl Hu Hin t0. unfold register.
  unfold bind at 1. rewrite (pull_ok w blob data Hf Hl).
  unfold bind at 1, input at 1.
  replace (stdin (pulled data w)) with (u :: p :: rest)
    by (symmetry; exact Hin).
  unfold bind at 1.
  rewrite (register_check _ u t0) by (reflexivity || assumption).
  destruct (has_username u t0); [reflexivity|].
  unfold bind at 1, input at 1. cbn [stdin with_stdin].
  unfold bind at 1, execute_insert at 1, bind at 1, table at 1.
  cbn [login_id pulled with_login_id with_stdin]. fold t0.
  fold (user_id_of messg).
  destruct (Sql.insert (user_id_of messg, u, p) t0) as [e | t'];
    [reflexivity|].
  unfold modify at 1.
  unfold bind at 1. rewrite (update_data_run None _ t') by reflexivity.
  unfold query, bind, table, gets, ret.
  repeat first
    [ match goal with
      | |- context [login_id (update_world ?a ?b)] =>
          rewrite (proj1 (update_world_frame a b))
      end
    | progress cbn [login_id with_login_id] ].
  reflexivity.
Qed.

(** [register] called without a name and a password asks for them on
    the console, the name first.  The answers are used as the
    arguments would be; when the name is taken the password is not
    asked for and its line stays unread. *)
Theorem register_asks_on_console w (messg : option Message) u p
        (rest : list pystr) (blob : pystr) (data : list Row) :
  fetch (chan w) (global_file_id (pointer w)) = Some blob ->
  table_of blob = Some data ->
  text u ->
  stdin w = u :: p :: rest ->
  fst (register messg None None w) = fst (register messg (Some u) (Some p) w)
  /\ login_id (snd (register messg None None w))
     = login_id (snd (register messg (Some u) (Some p) w))
  /\ stdin (snd (register messg None None w))
     = if has_username u (rows_of (login_id w) ++ data)
       then p :: rest else rest.
Proof.
  intros Hf Hl Hu Hin.
  rewrite (register_run messg u p w blob data Hf Hl Hu).
  rewrite (register_console_run messg u p rest w blob data Hf Hl Hu Hin).
  cbv zeta.
  destruct (has_username u (rows_of (login_id w) ++ data));
    [now repeat split|].
  destruct (Sql.insert _ _) as [e | t']; [now repeat split|].
  cbn [fst snd].
  repeat match goal with
  | |- context [login_id (update_world ?a ?b)] =>
      rewrite (proj1 (update_world_frame a b))
  | |- context [stdin (update_world ?a ?b)] =>
      let H := fresh in
      destruct (update_world_frame a b) as (_ & _ & _ & H & _);
      rewrite H; clear H
  end.
  now repeat split.
Qed.

(** With nothing to read on the console, [register] without a name
    stops with [EOFError] after the pull: the rows of the backup are in
    the table although nobody was registered. *)
Theorem register_without_input w (messg : option Message)
        (password_in : option pystr) (blob : pystr) (data : list Row) :
  fetch (chan w) (global_file_id (pointer w)) = Some blob ->
  table_of blob = Some data ->
  stdin w = [] ->
  register messg None password_in w = (Raise EOFError, pulled data w)
  /\ login_id (pulled data w) = Some (rows_of (login_id w) ++ data).
Proof.
  intros Hf Hl Hin. split; [|reflexivity]. unfold register.
  unfold bind at 1. rewrite (pull_ok w blob data Hf Hl).
  unfold bind at 1, input at 1.
  cbn [stdin pulled with_login_id with_call]. now rewrite Hin.
Qed.

(** [register] with a value SQLite cannot bind, after a pull that
    succeeds: a name that is not text stops the duplicate check, an id
    outside 64 bits or a password that is not text stops the INSERT.
    The exception reaches the caller, nothing is pushed and nobody is
    registered, but the rows of the backup are in the table. *)
Theorem register_unstorable w (messg : option Message) u p
        (blob : pystr) (data : list Row) :
  fetch (chan w) (global_file_id (pointer w)) = Some blob ->
  table_of blob = Some data ->
  (~ text u ->
   register messg (Some u) (Some p) w
   = (Raise UnicodeEncodeError, pulled data w))
  /\ (text u ->
      (forall r, In r (rows_of (login_id w) ++ data) -> row_username r <> u) ->
      (~ int64 (user_id_of messg) ->
       register messg (Some u) (Some p) w
       = (Raise OverflowError, pulled data w))
      /\ (int64 (user_id_of messg) -> ~ text p ->
          register messg (Some u) (Some p) w
          = (Raise UnicodeEncodeError, pulled data w))).
Proof.
  intros Hf Hl. split.
  - intros Hu. unfold register.
    unfold bind at 1. rewrite (pull_ok w blob data Hf Hl).
    unfold bind at 1, ret at 1. unfold bind at 1, query_str, bind, table.
    cbn [login_id pulled with_login_id].
    now rewrite (bind_str_other u Hu).
  - intros Hu Hnew.
    rewrite (register_run messg u p w blob data Hf Hl Hu). cbv zeta.
    rewrite (has_username_false u _ Hnew).
    unfold Sql.insert. cbn [row_id row_username row_password fst snd].
    split.
    + intros Hid. now rewrite (bind_int_other _ Hid).
    + intros Hid Hp. unfold Sql.bind_int.
      rewrite (proj2 (int64b_spec _) Hid), (bind_str_text u Hu).
      now rewrite (bind_str_other p Hp).
Qed.

(** [delete] works on the table only: it makes no call to the channel
    and reads no input, so the backup is not refreshed by it. *)
Theorem delete_is_local w (m : Message) :
  calls (snd (delete m w)) = calls w
  /\ chan (snd (delete m w)) = chan w
  /\ stdin (snd (delete m w)) = stdin w.
Proof.
  unfold delete, bind, send_message, table, modify, unmodelled.
  destruct (delivers (chan w) (sends w) _ _); [|now repeat split].
  cbn [login_id chan sends with_sent].
  destruct (login_id w) as [t |]; [|now repeat split].
  destruct (int64b (chat_id m)); [|now repeat split].
  destruct (Sql.fetchone _);
    match goal with
    | |- context [if ?b then _ else _] => destruct b
    end; now repeat split.
Qed.

(** A second [delete] for the same chat, after one that returned,
    finds nothing left: it leaves the table as the first one made it
    and, when its two notifications are delivered, returns having
    answered that there is no such user. *)
Theorem delete_twice w (m : Message) t :
  login_id w = Some t ->
  int64 (chat_id m) ->
  fst (delete m w) = Ok tt ->
  let w1 := snd (delete m w) in
  login_id (snd (delete m w1)) = login_id w1
  /\ (delivered (chan w1) (sends w1) (chat_id m)
        [lit "Deleting"; lit "NO SUCH USER IN DATABASE"] ->
      fst (delete m w1) = Ok tt
      /\ outbox (snd (delete m w1))
         = outbox w1 ++ [(chat_id m, lit "Deleting");
                         (chat_id m, lit "NO SUCH USER IN DATABASE")]).
Proof.
  intros Ht Hx Hok w1.
  assert (Hw1 : exists t1,
    login_id w1 = Some t1 /\ forall r, In r t1 -> row_id r <> chat_id m).
  { subst w1. revert Hok. rewrite (delete_run m w t Ht Hx). cbv zeta.
    destruct (delivers (chan w) (sends w) _ _); [|discriminate].
    destruct (existsb _ t) eqn:E;
      (destruct (delivers (chan w) (S (sends w)) _ _); [|discriminate]);
      intros _; cbn [snd login_id with_sent with_login_id].
    - exists (Sql.delete_where_id (chat_id m) t). split; [reflexivity|].
      apply delete_where_id_none.
    - exists t. split; [exact Ht|]. intros r Hr Heq.
      now rewrite (has_id_true (chat_id m) t) in E by eauto. }
  destruct Hw1 as (t1 & Ht1 & Hnone).
  rewrite (delete_run m w1 t1 Ht1 Hx). cbv zeta.
  rewrite (has_id_false _ t1 Hnone). split.
  - destruct (delivers (chan w1) (sends w1) _ _); [|reflexivity].
    now destruct (delivers (chan w1) (S (sends w1)) _ _).
  - intros (H1 & H2 & _). rewrite H1, H2.
    cbn [fst snd outbox with_sent]. rewrite <- app_assoc. now split.
Qed.

(** How [delete] fails.  On a [users.db] without the table it raises
    [OperationalError] once the first notification is out.  When the
    notification that follows the DELETE is refused, the exception
    reaches the caller before the commit, and the table keeps the
    rows. *)
Theorem delete_failures w (m : Message) :
  let x := chat_id m in
  (login_id w = None ->
   delivers (chan w) (sends w) x (lit "Deleting") = true ->
   delete m w = (Raise OperationalError, with_sent x (lit "Deleting") w))
  /\ (forall t,
        login_id w = Some t ->
        int64 x ->
        (exists r, In r t /\ row_id r = x) ->
        delivers (chan w) (sends w) x (lit "Deleting") = true ->
        delivers (chan w) (S (sends w)) x
                 (lit "Deleted user " ++ Json.encode_int x) = false ->
        fst (delete m w) = Raise ChannelError
        /\ login_id (snd (delete m w)) = Some t).
Proof.
  intros x. split.
  - intros Ht H1. unfold delete. unfold bind at 1, send_message at 1.
    fold x. rewrite H1. unfold bind, table. cbn [login_id with_sent].
    now rewrite Ht.
  - intros t Ht Hx Hex H1 H2.
    rewrite (delete_run m w t Ht Hx). cbv zeta. fold x.
    rewrite H1, (has_id_true x t Hex), H2. now split.
Qed.

(** A [save_data] on an existing table whose document the channel
    accepts and whose notifications are delivered tells the chat where
    the backup now is: three notifications, in this order, with the
    chat id, the message id after the command's, and the [file_id] of
    the document, which are the three fields of the pointer it wrote.
    The table is not changed, and the handler returns normally even if
    the edit that follows is refused. *)
Theorem save_reports_the_pointer w (m : Message) t (file_id : pystr) (ch : Chan) :
  login_id w = Some t ->
  send_document (chan w) (chat_id m) (Json.dumps t) = Some (file_id, ch) ->
  delivered ch (sends w) (chat_id m) (save_notes m file_id) ->
  let after := snd (save_data m w) in
  fst (save_data m w) = Ok tt
  /\ outbox after
     = outbox w
       ++ [(chat_id m,
            lit "admin_id = "
            ++ Json.encode_int (global_data_chat (pointer after)));
           (chat_id m,
            lit "config_id = "
            ++ Json.encode_int (global_data_message (pointer after)));
           (chat_id m, lit "file_id = " ++ global_file_id (pointer after))]
  /\ pointer after = mkPointer (chat_id m) (message_id m + 1) file_id
  /\ login_id after = login_id w.
Proof.
  intros Ht Hs Hd after. subst after.
  destruct (save_data_sent m w t file_id ch Ht Hs Hd)
    as (Hok & Hp & Hl & _ & Ho & _).
  rewrite Hok, Ho, Hp, Hl. now repeat split.
Qed.

(** A pull right after a [save_data] doubles the table: when the
    channel serves the document just saved under the [file_id] it
    returned, the pull inserts every row a second time. *)
Theorem save_then_pull_doubles w (m : Message) t (file_id : pystr) (ch : Chan) :
  login_id w = Some t ->
  send_document (chan w) (chat_id m) (Json.dumps t) = Some (file_id, ch) ->
  delivered ch (sends w) (chat_id m) (save_notes m file_id) ->
  fetch (chan (snd (save_data m w))) file_id = Some (Json.dumps t) ->
  Forall storable t ->
  fst (pull (snd (save_data m w))) = Ok tt
  /\ login_id (snd (pull (snd (save_data m w)))) = Some (t ++ t).
Proof.
  intros Ht Hs Hd Hf Hst.
  destruct (save_data_sent m w t file_id ch Ht Hs Hd) as (_ & Hp & Hl & _).
  rewrite (pull_ok (snd (save_data m w)) (Json.dumps t) t).
  - cbn [fst snd login_id pulled with_login_id with_call].
    now rewrite Hl, Ht.
  - now rewrite Hp.
  - now apply table_of_dumps.
Qed.

(** [sighin] after a pull that succeeds reads the name from the
    console.  For a name of text in no row it sends the chat the text
    for unregistered users and, when that is delivered, returns having
    read nothing more.  For a name in a row it reads the password as
    well and sends nothing, whatever the password is, and returns.  The
    table is as the pull left it, and the channel sees the download
    only. *)
Theorem sighin_outcomes w (m : Message) u (rest : list pystr)
        (blob : pystr) (data : list Row) :
  fetch (chan w) (global_file_id (pointer w)) = Some blob ->
  table_of blob = Some data ->
  text u ->
  stdin w = u :: rest ->
  let t0 := rows_of (login_id w) ++ data in
  ((forall r, In r t0 -> row_username r <> u) ->
   delivers (chan w) (sends w) (chat_id m) not_registered = true ->
   sighin m w
   = (Ok tt, with_sent (chat_id m) not_registered
               (with_stdin rest (pulled data w))))
  /\ (forall p rest',
        rest = p :: rest' ->
        (exists r, In r t0 /\ row_username r = u) ->
        sighin m w = (Ok tt, with_stdin rest' (pulled data w))).
Proof.
  intros Hf Hl Hu Hin t0.
  assert (Hfetch : forall t,
    Sql.fetchone (Sql.select_login_where_username u t) = None
    <-> has_username u t = false).
  { intros t. unfold Sql.fetchone, Sql.select_login_where_username, has_username.
    induction t as [| r t IH]; cbn [filter List.map existsb hd_error]; [tauto|].
    destruct (pystr_eqb (row_username r) u); cbn [orb List.map hd_error];
      [split; discriminate | exact IH]. }
  assert (Hrun :
    sighin m w
    = match Sql.fetchone (Sql.select_login_where_username u t0) with
      | None => send_message (chat_id m) not_registered
                  (with_stdin rest (pulled data w))
      | Some _ =>
        match rest with
        | [] => (Raise EOFError, with_stdin rest (pulled data w))
        | _ :: rest' => (Ok tt, with_stdin rest' (pulled data w))
        end
      end).
  { unfold sighin. unfold bind at 1. rewrite (pull_ok w blob data Hf Hl).
    unfold bind at 1, input at 1.
    replace (stdin (pulled data w)) with (u :: rest) by (symmetry; exact Hin).
    unfold bind at 1, query_str, bind, table.
    cbn [login_id pulled with_login_id with_stdin]. fold t0.
    rewrite (bind_str_text u Hu). unfold ret at 1.
    destruct (Sql.fetchone (Sql.select_login_where_username u t0))
      as [name_out |]; [|reflexivity].
    unfold bind, input, ret. cbn [stdin with_stdin].
    destruct rest as [| p rest']; [reflexivity|].
    destruct (pystr_eqb (snd name_out) p); reflexivity. }
  rewrite Hrun. split.
  - intros Hnew Hd. apply has_username_false, Hfetch in Hnew. rewrite Hnew.
    unfold send_message. cbn [chan sends with_stdin pulled with_login_id with_call].
    now rewrite Hd.
  - intros p rest' -> Hex.
    destruct (Sql.fetchone (Sql.select_login_where_username u t0))
      as [name_out |] eqn:E; [reflexivity|].
    apply Hfetch in E. now rewrite (has_username_true u t0 Hex) in E.
Qed.

(** On a [users.db] without the table, [update_data] and [save_data]
    raise [OperationalError] at their SELECT, before any call to the
    channel: the failure is outside the [try] and reaches the caller. *)
Theorem push_without_table w (messg : option Message) (m : Message) :
  login_id w = None ->
  update_data messg w = (Raise OperationalError, w)
  /\ save_data m w = (Raise OperationalError, w).
Proof.
  intros Ht. split.
  - now apply update_data_no_table.
  - now apply save_data_no_table.
Qed.

(** No handler but [save_data] writes the pointer: [update_data],
    [register], [sighin] and [delete] leave it as it is, however they
    end. *)
Theorem pointer_is_left_alone w :
  (forall messg, pointer (snd (update_data messg w)) = pointer w)
  /\ (forall messg username_in password_in,
        pointer (snd (register messg username_in password_in w)) = pointer w)
  /\ (forall messg, pointer (snd (sighin messg w)) = pointer w)
  /\ (forall messg, pointer (snd (delete messg w)) = pointer w).
Proof.
  repeat split.
  - intros messg. apply keeps_update_data.
  - intros messg username_in password_in. apply keeps_register.
  - intros messg. apply keeps_sighin.
  - intros messg. apply keeps_delete.
Qed.

End HandlerExtras.
(* ================================================================== *)
(** * More on the ranking queries *)

Module RankExtras.
Import Sql.

Local Open Scope Z_scope.

(** The row numbers of the ranking query are the numbers 1, 2, ..., N,
    each once, for a table of N rows, also when ids are tied. *)
Theorem ranks_enumerate (t : list Row) :
  Permutation (List.map snd (select_ranked t))
              (List.map Z.of_nat (seq 1 (List.length t))).
Proof.
  unfold select_ranked.
  change (fun r : Row => (row_id r, row_username r)) with project.
  rewrite SqlFacts.row_number_ranks, SqlFacts.sorted_length, <- seq_shift, map_map.
  erewrite map_ext; [reflexivity|]. intros j. cbn beta. lia.
Qed.

(** Every entry of [rank_of u] carries the name [u], the id of a row
    with that name, and a rank between 1 and the size of the table;
    and every row named [u] has an entry.  Ids need not be distinct. *)
Theorem rank_of_entries (t : list Row) (u : pystr) :
  (forall i n k,
      In (i, n, k) (rank_of u t) ->
      n = u /\ (exists p, In (i, u, p) t)
      /\ 1 <= k <= Z.of_nat (List.length t))
  /\ (forall i p, In (i, u, p) t -> exists k, In (i, u, k) (rank_of u t)).
Proof.
  unfold rank_of, select_ranked.
  change (fun r : Row => (row_id r, row_username r)) with project.
  pose proof (SqlFacts.order_perm (List.map project t)) as Hperm.
  split.
  - intros i n k Hin. apply filter_In in Hin as [Hin Hn].
    cbn [fst snd] in Hn. apply pystr_eqb_eq in Hn. subst n.
    apply SqlFacts.row_number_In in Hin as (j & Hj & ->).
    split; [reflexivity|]. split.
    + apply SqlFacts.In_project.
      eapply Permutation_in; [symmetry; exact Hperm|].
      eapply nth_error_In; eauto.
    + assert (Hlt : (j < List.length (order_by_id_desc (List.map project t)))%nat)
        by (apply nth_error_Some; now rewrite Hj).
      rewrite SqlFacts.sorted_length in Hlt. lia.
  - intros i p Hin.
    assert (Hin' : In (i, u) (order_by_id_desc (List.map project t))).
    { eapply Permutation_in; [exact Hperm|].
      apply SqlFacts.In_project. now exists p. }
    destruct (In_nth_error _ _ Hin') as [j Hj].
    exists (1 + Z.of_nat j). apply filter_In. split.
    + apply SqlFacts.row_number_In. now exists j.
    + cbn [fst snd]. apply pystr_eqb_refl.
Qed.

(** [top_n k] is a top: the table splits into the entries returned and
    the entries left out, and no entry left out has a larger id than an
    entry returned.  It returns [k] entries, or all of them when the
    table has fewer. *)
Theorem top_n_is_top (t : list Row) (k : nat) :
  List.length (top_n k t) = Nat.min k (List.length t)
  /\ exists rest,
       Permutation (List.map project t) (top_n k t ++ rest)
       /\ forall a b, In a (top_n k t) -> In b rest -> fst b <= fst a.
Proof.
  unfold top_n, select_top.
  change (fun r : Row => (row_id r, row_username r)) with project.
  split; [now rewrite length_firstn, SqlFacts.sorted_length|].
  exists (skipn k (order_by_id_desc (List.map project t))). split.
  - rewrite firstn_skipn. apply SqlFacts.order_perm.
  - apply SqlFacts.sorted_app_le. rewrite firstn_skipn. apply SqlFacts.order_sorted.
Qed.

End RankExtras.

(* ================================================================== *)
(** * More on the codec *)

Module JsonExtras.
Import Json.

Lemma hex_digit_printable (d : N) : d < 16 -> printable (hex_digit d).
Proof.
  intros Hd. unfold hex_digit, printable.
  destruct (N.ltb_spec d 10); lia.
Qed.

Lemma u_escape_printable (n : N) : Forall printable (u_escape n).
Proof.
  unfold u_escape.
  repeat (constructor;
          [first [ apply hex_digit_printable; apply N.mod_lt; discriminate
                 | unfold printable; lia ] |]).
  constructor.
Qed.

Lemma encode_char_printable (c : N) : Forall printable (encode_char c).
Proof.
  unfold encode_char.
  repeat match goal with
  | |- context [if ?x =? ?y then _ else _] =>
      destruct (x =? y);
      [repeat (constructor; [unfold printable; lia|]); constructor|]
  end.
  destruct ((32 <=? c) && (c <=? 126)) eqn:E.
  - apply andb_true_iff in E as [H1 H2].
    apply N.leb_le in H1, H2. repeat constructor; assumption.
  - destruct (c <? 65536); [apply u_escape_printable|].
    cbv zeta. apply Forall_app. split; apply u_escape_printable.
Qed.

Lemma encode_str_printable (s : pystr) : Forall printable (encode_str s).
Proof.
  unfold encode_str. constructor; [unfold printable; lia|].
  apply Forall_app. split; [|repeat constructor; unfold printable; lia].
  induction s as [| c s IH]; cbn [flat_map]; [constructor|].
  apply Forall_app. split; [apply encode_char_printable | exact IH].
Qed.

Lemma uint_chars_printable (d : Decimal.uint) : Forall printable (uint_chars d).
Proof.
  induction d; cbn [uint_chars]; constructor; auto; unfold printable; lia.
Qed.

Lemma encode_int_printable (z : Z) : Forall printable (encode_int z).
Proof.
  destruct z; cbn [encode_int];
    repeat first [apply uint_chars_printable
                 | constructor; [unfold printable; lia|]].
  constructor.
Qed.

Lemma join_items_printable (items : list pystr) :
  Forall (Forall printable) items -> Forall printable (join_items items).
Proof.
  induction 1 as [| x items Hx Hitems IH]; [constructor|].
  destruct items as [| y items]; [exact Hx|].
  change (join_items (x :: y :: items))
    with (x ++ 44 :: 32 :: join_items (y :: items)).
  apply Forall_app. split; [exact Hx|].
  repeat (constructor; [unfold printable; lia|]). exact IH.
Qed.

Lemma encode_array_printable (items : list pystr) :
  Forall (Forall printable) items -> Forall printable (encode_array items).
Proof.
  intros H. unfold encode_array. constructor; [unfold printable; lia|].
  apply Forall_app. split; [now apply join_items_printable|].
  repeat constructor; unfold printable; lia.
Qed.

(** The document [json.dumps] writes for a table is printable ASCII
    throughout, whatever characters the names and passwords contain. *)
Theorem dumps_is_ascii (rows : list Row) : Forall printable (dumps rows).
Proof.
  unfold dumps. apply encode_array_printable.
  apply Forall_forall. intros x Hx.
  apply in_map_iff in Hx as ([[i u] p] & <- & _).
  unfold encode_row. apply encode_array_printable.
  constructor; [apply encode_int_printable|].
  constructor; [apply encode_str_printable|].
  constructor; [apply encode_str_printable|]. constructor.
Qed.


(** Tables of text with the same document are the same table. *)
Theorem dumps_injective (a b : list Row) :
  Forall text_row a -> Forall text_row b -> dumps a = dumps b -> a = b.
Proof.
  intros Ha Hb Heq.
  pose proof (JsonFacts.loads_dumps a Ha) as H1.
  rewrite Heq, (JsonFacts.loads_dumps b Hb) in H1.
  now injection H1.
Qed.

End JsonExtras.


(* ================================================================== *)
(** * Switching options *)

Module OptFacts.
Import Opt.

Lemma rotate_right_left (d : list pystr) : rotate_right (rotate_left d) = d.
Proof.
  destruct d as [| x l]; [reflexivity|]. cbn [rotate_left].
  unfold rotate_right. destruct (l ++ [x]) as [| y l'] eqn:E.
  - now destruct l.
  - rewrite <- E. now rewrite last_last, removelast_last.
Qed.

Lemma rotate_left_right (d : list pystr) : rotate_left (rotate_right d) = d.
Proof.
  destruct d as [| x l]; [reflexivity|].
  unfold rotate_right, rotate_left.
  symmetry. apply app_removelast_last. discriminate.
Qed.

Lemma rotate_right_cons (x : pystr) (l : list pystr) :
  exists y l', rotate_right (x :: l) = y :: l'.
Proof. unfold rotate_right. eauto. Qed.

Lemma rotate_left_cons (x : pystr) (l : list pystr) :
  exists y l', rotate_left (x :: l) = y :: l'.
Proof. cbn. destruct l; cbn; eauto. Qed.

Lemma rotate_left_perm (d : list pystr) : Permutation d (rotate_left d).
Proof.
  destruct d as [| x l]; [reflexivity|]. cbn [rotate_left].
  apply Permutation_cons_append.
Qed.

Lemma rotate_right_perm (d : list pystr) : Permutation d (rotate_right d).
Proof.
  rewrite <- (rotate_left_right d) at 1.
  symmetry. apply rotate_left_perm.
Qed.

Lemma hd_skipn (d : list pystr) (k : nat) :
  hd_error (skipn k d) = nth_error d k.
Proof.
  revert d. induction k as [| k IH]; intros [| x l]; cbn; auto.
Qed.

(** [k] rotations to the left move the first [k] elements to the end. *)
Lemma rotate_left_times (d : list pystr) (k : nat) :
  (k <= List.length d)%nat ->
  Nat.iter k rotate_left d = skipn k d ++ firstn k d.
Proof.
  induction k as [| k IH]; intros Hk.
  - cbn. now rewrite app_nil_r.
  - rewrite Nat.iter_succ, IH by lia.
    destruct (skipn k d) as [| x l] eqn:E.
    + assert (Hlen : List.length (skipn k d) = 0%nat) by now rewrite E.
      rewrite length_skipn in Hlen. lia.
    + cbn [rotate_left app].
      assert (Hs : skipn (S k) d = l).
      { replace (S k) with (1 + k)%nat by lia.
        rewrite <- skipn_skipn, E. reflexivity. }
      assert (Hf : firstn (S k) d = firstn k d ++ [x]).
      { rewrite <- (firstn_skipn k d) at 1.
        rewrite firstn_app, E.
        rewrite firstn_all2 by (rewrite length_firstn; lia).
        rewrite length_firstn.
        replace (S k - Nat.min k (List.length d))%nat with 1%nat by lia.
        reflexivity. }
      now rewrite Hs, Hf, <- app_assoc.
Qed.

Lemma seek_first (value : pystr) (pre post : list pystr) (fuel : nat) :
  ~ In value pre ->
  (List.length pre <= fuel)%nat ->
  seek fuel value (pre ++ value :: post)
  = Some (Done tt, value :: post ++ pre).
Proof.
  revert post fuel.
  induction pre as [| x pre IH]; intros post fuel Hnot Hfuel.
  - cbn [app]. rewrite app_nil_r.
    destruct fuel; cbn [seek]; now rewrite pystr_eqb_refl.
  - assert (Hx : pystr_eqb value x = false).
    { destruct (pystr_eqb value x) eqn:E; [|reflexivity].
      apply pystr_eqb_eq in E. subst x. destruct Hnot. now left. }
    destruct fuel as [| fuel]; [cbn in Hfuel; lia|].
    cbn [app seek]. rewrite Hx. cbn [rotate_left].
    rewrite <- app_assoc. cbn [app].
    rewrite IH.
    + now rewrite <- app_assoc.
    + intros Hin. apply Hnot. now right.
    + cbn in Hfuel. lia.
Qed.

Lemma first_split (value : pystr) (d : list pystr) :
  In value d ->
  exists pre post, d = pre ++ value :: post /\ ~ In value pre.
Proof.
  induction d as [| x d IH]; intros Hin; [destruct Hin|].
  destruct (pystr_eqb value x) eqn:E.
  - apply pystr_eqb_eq in E. subst x. exists [], d. now split.
  - assert (Hne : x <> value).
    { intros ->. now rewrite pystr_eqb_refl in E. }
    destruct Hin as [-> | Hin]; [congruence|].
    destruct (IH Hin) as (pre & post & -> & Hnot).
    exists (x :: pre), post. split; [reflexivity|].
    intros [-> | H]; [congruence | contradiction].
Qed.

Lemma mem_In (value : pystr) (d : list pystr) :
  mem value d = true <-> In value d.
Proof.
  unfold mem. rewrite existsb_exists. split.
  - intros (x & Hin & E). apply pystr_eqb_eq in E. now subst.
  - intros Hin. exists value. split; [exact Hin | apply pystr_eqb_refl].
Qed.

Section WithFont.

Variable renders : pystr -> bool.

Lemma fine_rotate_left (d : list pystr) : all_render renders d -> all_render renders (rotate_left d).
Proof. apply Permutation_Forall, rotate_left_perm. Qed.

Lemma fine_rotate_right (d : list pystr) : all_render renders d -> all_render renders (rotate_right d).
Proof. apply Permutation_Forall, rotate_right_perm. Qed.

Lemma fine_iter (k : nat) (d : list pystr) :
  all_render renders d -> all_render renders (Nat.iter k rotate_left d).
Proof.
  intros H. induction k as [| k IH]; [exact H|].
  rewrite Nat.iter_succ. now apply fine_rotate_left.
Qed.

Lemma take_head_of (d : list pystr) (s : Switch) :
  d <> [] ->
  all_render renders d ->
  take_head renders d s = (Done tt, mkSwitch (Some d) (hd_error d)).
Proof.
  intros Hd Hf. destruct d as [| x l]; [congruence|].
  cbn [take_head hd_error]. now rewrite (Forall_inv Hf).
Qed.

Lemma switch_next_times_run (k : nat) (s : Switch) (d : list pystr) :
  variants s = Some d ->
  d <> [] ->
  all_render renders d ->
  (0 < k)%nat ->
  switch_next_times renders k s
  = (Done tt, mkSwitch (Some (Nat.iter k rotate_left d))
                       (hd_error (Nat.iter k rotate_left d))).
Proof.
  revert s d.
  induction k as [| k IH]; intros s d Hv Hd Hf Hk; [lia|].
  cbn [switch_next_times]. unfold switch_next. rewrite Hv.
  assert (Hr : rotate_left d <> []).
  { destruct d as [| x l]; [congruence|]. cbn. now destruct l. }
  rewrite (take_head_of _ s Hr (fine_rotate_left d Hf)).
  destruct k as [| k].
  - reflexivity.
  - rewrite (IH _ (rotate_left d)) by (auto using fine_rotate_left; lia).
    now rewrite (Nat.iter_succ_r (S k)).
Qed.

(** [switch_next] and [switch_prev] undo each other: on an option whose
    deque is not empty and whose variants all render, either one
    followed by the other returns normally and leaves the option as it
    was. *)
Theorem switch_next_prev_inverse (s : Switch) :
  ready renders s ->
  fst (switch_next renders s) = Done tt
  /\ switch_prev renders (snd (switch_next renders s)) = (Done tt, s)
  /\ fst (switch_prev renders s) = Done tt
  /\ switch_next renders (snd (switch_prev renders s)) = (Done tt, s).
Proof.
  intros (x & l & Hv & Hc & Hf). destruct s as [v c]. cbn in Hv, Hc. subst v c.
  unfold switch_next, switch_prev. cbn [variants].
  assert (Hnl : rotate_left (x :: l) <> [])
    by (destruct (rotate_left_cons x l) as (y & l' & ->); discriminate).
  assert (Hnr : rotate_right (x :: l) <> [])
    by (destruct (rotate_right_cons x l) as (y & l' & ->); discriminate).
  assert (Hx : (x :: l) <> []) by discriminate.
  rewrite (take_head_of _ _ Hnl (fine_rotate_left _ Hf)).
  rewrite (take_head_of _ _ Hnr (fine_rotate_right _ Hf)).
  cbn [fst snd variants]. rewrite rotate_right_left, rotate_left_right.
  rewrite !(take_head_of _ _ Hx Hf). now repeat split.
Qed.

(** Switching forward walks through the variants in their order and
    comes round: after [k] calls, [k] below the number of variants, the
    current variant is the one at position [k], and after as many calls
    as there are variants the option is as it was. *)
Theorem switch_next_cycles (s : Switch) (d : list pystr) :
  variants s = Some d ->
  ready renders s ->
  (forall k, (k < List.length d)%nat ->
     fst (switch_next_times renders k s) = Done tt
     /\ curr_var (snd (switch_next_times renders k s)) = nth_error d k)
  /\ switch_next_times renders (List.length d) s = (Done tt, s).
Proof.
  intros Hv (x & l & Hv' & Hc & Hf).
  assert (Hd : d = x :: l) by congruence. subst d.
  split.
  - intros k Hk. destruct k as [| k]; [cbn; now split|].
    rewrite (switch_next_times_run (S k) s (x :: l) Hv)
      by (congruence || assumption || lia).
    cbn [fst snd curr_var]. split; [reflexivity|].
    rewrite rotate_left_times by lia.
    rewrite <- hd_skipn.
    destruct (skipn (S k) (x :: l)) as [| y l'] eqn:E; [|reflexivity].
    assert (Hlen : List.length (skipn (S k) (x :: l)) = 0%nat) by now rewrite E.
    rewrite length_skipn in Hlen. lia.
  - rewrite (switch_next_times_run _ s (x :: l) Hv)
      by (congruence || assumption || cbn; lia).
    rewrite rotate_left_times, skipn_all, firstn_all by lia.
    destruct s as [v c]. cbn in *. now subst.
Qed.

(** [set_curr_value] with one of the variants, one that the font
    renders, returns normally, with no more turns of its loop than
    there are variants.  It rotates the deque to the first occurrence
    of the value: that occurrence comes to the front with all that
    followed it, what preceded it goes to the end in its order, and the
    value is the current variant. *)
Theorem set_curr_value_found (s : Switch) (d : list pystr) (value : pystr)
        (fuel : nat) :
  variants s = Some d ->
  In value d ->
  renders value = true ->
  (List.length d <= fuel)%nat ->
  exists pre post,
    d = pre ++ value :: post
    /\ ~ In value pre
    /\ set_curr_value renders fuel value s
       = Some (Done tt, mkSwitch (Some (value :: post ++ pre)) (Some value)).
Proof.
  intros Hv Hin Hr Hfuel.
  destruct (first_split value d Hin) as (pre & post & Hd & Hnot).
  exists pre, post. split; [exact Hd|]. split; [exact Hnot|].
  unfold set_curr_value. rewrite Hv.
  rewrite (proj2 (mem_In value d) Hin). cbn [negb].
  rewrite Hd, seek_first; [cbn [take_head]; now rewrite Hr | exact Hnot|].
  rewrite Hd, length_app in Hfuel. lia.
Qed.

(** [set_curr_value] with a value that is no variant raises
    [ValueError] without touching the option; on an option without
    variants the membership test itself raises [TypeError]. *)
Theorem set_curr_value_unknown (s : Switch) (value : pystr) (fuel : nat) :
  (forall d, variants s = Some d -> ~ In value d ->
     set_curr_value renders fuel value s = Some (Fail ValueError, s))
  /\ (variants s = None ->
      set_curr_value renders fuel value s = Some (Fail TypeError, s)).
Proof.
  unfold set_curr_value. split.
  - intros d Hv Hnot. rewrite Hv.
    destruct (mem value d) eqn:E; [|reflexivity].
    apply mem_In in E. contradiction.
  - intros Hv. now rewrite Hv.
Qed.

(** An option whose deque is not empty, whose variants all render and
    whose current variant is the first of the deque stays so under
    [switch_mb]: it returns normally, the current variant is the first
    of the deque afterwards, and the deque holds the same variants.
    [switch_mb] answers whether a button was hit; when both are, it
    switches back, and when none is, it changes nothing. *)
Theorem ready_is_kept (s : Switch) (d : list pystr) :
  variants s = Some d ->
  ready renders s ->
  forall prev_hit next_hit,
    let r := switch_mb renders prev_hit next_hit s in
    fst r = Done (prev_hit || next_hit)
    /\ ready renders (snd r)
    /\ (exists d', variants (snd r) = Some d' /\ Permutation d d')
    /\ snd r = if prev_hit then snd (switch_prev renders s)
               else if next_hit then snd (switch_next renders s)
               else s.
Proof.
  intros Hv Hready prev_hit next_hit r. subst r.
  destruct Hready as (x & l & Hv' & Hc & Hf).
  assert (Hd : d = x :: l) by congruence. subst d.
  destruct (rotate_left_cons x l) as (y & l' & Hl).
  destruct (rotate_right_cons x l) as (z & l'' & Hr).
  pose proof (fine_rotate_left _ Hf) as Hfl. rewrite Hl in Hfl.
  pose proof (fine_rotate_right _ Hf) as Hfr. rewrite Hr in Hfr.
  unfold switch_mb, switch_prev, switch_next. rewrite Hv.
  destruct prev_hit; [|destruct next_hit].
  - rewrite Hr. cbn [take_head]. rewrite (Forall_inv Hfr).
    cbn [fst snd orb]. repeat split.
    + now exists z, l''.
    + exists (z :: l''). split; [reflexivity|].
      rewrite <- Hr. apply rotate_right_perm.
  - rewrite Hl. cbn [take_head]. rewrite (Forall_inv Hfl).
    cbn [fst snd orb]. repeat split.
    + now exists y, l'.
    + exists (y :: l'). split; [reflexivity|].
      rewrite <- Hl. apply rotate_left_perm.
  - cbn [fst snd orb]. repeat split.
    + now exists x, l.
    + now exists (x :: l).
Qed.

(** When the font refuses the variant that comes to the front,
    [switch_next] raises with the deque already rotated and the current
    variant already changed. *)
Theorem switch_next_render_fails (s : Switch) (x y : pystr) (l : list pystr) :
  variants s = Some (x :: y :: l) ->
  renders y = false ->
  switch_next renders s
  = (Fail RenderError, mkSwitch (Some (y :: l ++ [x])) (Some y)).
Proof.
  intros Hv Hy. unfold switch_next. rewrite Hv.
  cbn [rotate_left app take_head]. now rewrite Hy.
Qed.

End WithFont.

End OptFacts.

(* ================================================================== *)
(** * The further properties on concrete inputs *)

(** Rows of 8-bit literals are text, and the table can hold them. *)
Ltac text_rows :=
  repeat constructor; unfold text, scalar;
  repeat (constructor; [left; reflexivity|]); constructor.

Ltac storable_rows :=
  repeat (constructor; [apply storableb_spec; reflexivity|]); constructor.

Lemma pull_failure_aborts_witness :
  let w0 := sim_world [alice] [bob] false true true in
  fetch (chan w0) (global_file_id (pointer w0)) = None
  /\ fst (register None (Some (lit "dave")) (Some (lit "pw4")) w0)
     = Raise ChannelError
  /\ login_id (snd (register None (Some (lit "dave")) (Some (lit "pw4")) w0))
     = Some [alice].
Proof.
  intros w0.
  destruct (pull_failure_aborts (api := sim_api) w0 None (mkMessage 42 7)
              (Some (lit "dave")) (Some (lit "pw4")) ltac:(reflexivity))
    as (Hreg & _ & Ht & _).
  split; [reflexivity|]. rewrite Hreg. split; [reflexivity | exact Ht].
Defined.

Lemma register_conflict_is_quiet_witness :
  let w0 := sim_world [] [alice] true true true in
  (exists r, In r (rows_of (login_id w0) ++ [alice])
             /\ row_username r = lit "alice")
  /\ register (Some (mkMessage 42 7)) (Some (lit "alice")) None w0
     = (Ok (None, None), pulled [alice] w0).
Proof.
  intros w0.
  assert (H : exists r, In r (rows_of (login_id w0) ++ [alice])
                        /\ row_username r = lit "alice").
  { exists alice. split; [now left | reflexivity]. }
  split; [exact H|].
  exact (proj1 (register_conflict_is_quiet (api := sim_api) w0
           (Some (mkMessage 42 7)) (lit "alice") None (Json.dumps [alice])
           [alice] ltac:(reflexivity) ltac:(reflexivity) ltac:(is_text) H)).
Defined.

Lemma register_success_pushes_once_witness :
  let w0 := sim_world [] [alice] true true false in
  let after := snd (register (Some (mkMessage 42 7)) (Some (lit "dave"))
                             (Some (lit "pw4")) w0) in
  login_id after = Some [alice; (42%Z, lit "dave", lit "pw4")]
  /\ calls after
     = [CallFetch (lit "doc0");
        CallEditMedia 721641425 430
          (Json.dumps [alice; (42%Z, lit "dave", lit "pw4")])].
Proof.
  intros w0 after.
  assert (Hnew : forall r, In r (rows_of (login_id w0) ++ [alice]) ->
                           row_username r <> lit "dave").
  { intros r [<- | []]. discriminate. }
  destruct (register_success_pushes_once (api := sim_api) w0
              (Some (mkMessage 42 7)) (lit "dave") (lit "pw4")
              (Json.dumps [alice]) [alice]
              ltac:(reflexivity) ltac:(reflexivity)
              ltac:(is_text) ltac:(is_text) ltac:(is_int64) Hnew)
    as (_ & Ht & Hc & _).
  split; [exact Ht | exact Hc].
Defined.

Lemma register_asks_on_console_witness :
  let w0 := with_stdin [lit "alice"; lit "pw9"; lit "more"]
              (sim_world [] [alice] true true true) in
  stdin w0 = [lit "alice"; lit "pw9"; lit "more"]
  /\ fst (register None None None w0) = Ok (None, None)
  /\ stdin (snd (register None None None w0)) = [lit "pw9"; lit "more"].
Proof.
  intros w0.
  destruct (register_asks_on_console (api := sim_api) w0 None
              (lit "alice") (lit "pw9") [lit "more"]
              (Json.dumps [alice]) [alice]
              ltac:(reflexivity) ltac:(reflexivity) ltac:(is_text)
              ltac:(reflexivity))
    as (Hres & _ & Hin).
  split; [reflexivity|]. split; [rewrite Hres; reflexivity | exact Hin].
Defined.

Lemma register_without_input_witness :
  let w0 := sim_world [] [alice] true true true in
  stdin w0 = []
  /\ register None None None w0 = (Raise EOFError, pulled [alice] w0)
  /\ login_id (pulled [alice] w0) = Some [alice].
Proof.
  intros w0. split; [reflexivity|].
  exact (register_without_input (api := sim_api) w0 None None
           (Json.dumps [alice]) [alice]
           ltac:(reflexivity) ltac:(reflexivity) ltac:(reflexivity)).
Defined.

Lemma register_unstorable_witness :
  let w0 := sim_world [] [alice] true true true in
  let big := mkMessage 9223372036854775808 7 in
  ~ int64 (user_id_of (Some big))
  /\ register (Some big) (Some (lit "dave")) (Some (lit "pw4")) w0
     = (Raise OverflowError, pulled [alice] w0)
  /\ ~ text [56832%N]
  /\ register None (Some [56832%N]) (Some (lit "pw4")) w0
     = (Raise UnicodeEncodeError, pulled [alice] w0).
Proof.
  intros w0 big.
  assert (Hbig : ~ int64 (user_id_of (Some big))).
  { intros H. apply int64b_spec in H. discriminate H. }
  assert (Hsur : ~ text [56832%N]).
  { intros H. apply textb_spec in H. discriminate H. }
  assert (Hnew : forall r, In r (rows_of (login_id w0) ++ [alice]) ->
                           row_username r <> lit "dave").
  { intros r [<- | []]. discriminate. }
  split; [exact Hbig|]. split; [|split; [exact Hsur|]].
  - exact (proj1 (proj2 (register_unstorable (api := sim_api) w0 (Some big)
                           (lit "dave") (lit "pw4") (Json.dumps [alice]) [alice]
                           ltac:(reflexivity) ltac:(reflexivity))
                        ltac:(is_text) Hnew) Hbig).
  - exact (proj1 (register_unstorable (api := sim_api) w0 None
                    [56832%N] (lit "pw4") (Json.dumps [alice]) [alice]
                    ltac:(reflexivity) ltac:(reflexivity)) Hsur).
Defined.

Lemma delete_twice_witness :
  let w0 := sim_world [alice; bob; carol] [] true true true in
  let w1 := snd (delete (mkMessage 5 9) w0) in
  fst (delete (mkMessage 5 9) w0) = Ok tt
  /\ fst (delete (mkMessage 5 9) w1) = Ok tt
  /\ login_id (snd (delete (mkMessage 5 9) w1)) = Some [alice; carol]
  /\ outbox (snd (delete (mkMessage 5 9) w1))
     = [(5%Z, lit "Deleting"); (5%Z, lit "Deleted user 5");
        (5%Z, lit "Deleting"); (5%Z, lit "NO SUCH USER IN DATABASE")].
Proof.
  intros w0 w1. subst w1.
  destruct (delete_twice (api := sim_api) w0 (mkMessage 5 9)
              [alice; bob; carol]
              ltac:(reflexivity) ltac:(is_int64) ltac:(reflexivity))
    as (Ht & Hrest).
  destruct (Hrest ltac:(is_delivered)) as (Hok & Hout).
  split; [reflexivity|]. split; [exact Hok|].
  split; [rewrite Ht; reflexivity | rewrite Hout; reflexivity].
Defined.

Lemma delete_failures_witness :
  (fst (delete (mkMessage 5 9) sim_fresh_db) = Raise OperationalError
   /\ outbox (snd (delete (mkMessage 5 9) sim_fresh_db))
      = [(5%Z, lit "Deleting")])
  /\ (fst (delete (mkMessage 5 9) (sim_world_notes [alice; bob] 1))
      = Raise ChannelError
      /\ login_id (snd (delete (mkMessage 5 9) (sim_world_notes [alice; bob] 1)))
         = Some [alice; bob]).
Proof.
  split.
  - rewrite (proj1 (delete_failures (api := sim_api) sim_fresh_db
                      (mkMessage 5 9))
                   ltac:(reflexivity) ltac:(reflexivity)).
    split; reflexivity.
  - apply (proj2 (delete_failures (api := sim_api)
                    (sim_world_notes [alice; bob] 1) (mkMessage 5 9))
                 [alice; bob] ltac:(reflexivity) ltac:(is_int64)).
    + exists bob. split; [right; now left | reflexivity].
    + reflexivity.
    + reflexivity.
Defined.

Lemma push_without_table_witness :
  login_id sim_fresh_db = None
  /\ update_data None sim_fresh_db = (Raise OperationalError, sim_fresh_db)
  /\ calls (snd (save_data (mkMessage 42 7) sim_fresh_db)) = [].
Proof.
  destruct (push_without_table (api := sim_api) sim_fresh_db None
              (mkMessage 42 7) ltac:(reflexivity)) as (Hu & Hs).
  split; [reflexivity|]. split; [exact Hu|]. rewrite Hs. reflexivity.
Defined.

Lemma save_reports_the_pointer_witness :
  let w0 := sim_world [alice] [] true true false in
  outbox (snd (save_data (mkMessage 42 7) w0))
  = [(42%Z, lit "admin_id = 42"); (42%Z, lit "config_id = 8");
     (42%Z, lit "file_id = doc1")]
  /\ pointer (snd (save_data (mkMessage 42 7) w0))
     = mkPointer 42 8 (lit "doc1").
Proof.
  intros w0.
  destruct (save_reports_the_pointer (api := sim_api) w0 (mkMessage 42 7)
              [alice]
              (lit "doc1") (sim_store (Json.dumps [alice]) (chan w0))
              ltac:(reflexivity) ltac:(reflexivity) ltac:(is_delivered))
    as (_ & Hout & Hptr & _).
  split; [|exact Hptr].
  rewrite Hout. reflexivity.
Defined.

Lemma save_then_pull_doubles_witness :
  let w0 := sim_world [alice; bob] [] true true true in
  Forall storable [alice; bob]
  /\ login_id (snd (pull (snd (save_data (mkMessage 42 7) w0))))
     = Some [alice; bob; alice; bob].
Proof.
  intros w0.
  assert (Hst : Forall storable [alice; bob]) by storable_rows.
  split; [exact Hst|].
  exact (proj2 (save_then_pull_doubles (api := sim_api) w0 (mkMessage 42 7)
                  [alice; bob]
                  (lit "doc1") (sim_store (Json.dumps [alice; bob]) (chan w0))
                  ltac:(reflexivity) ltac:(reflexivity) ltac:(is_delivered)
                  ltac:(vm_compute; reflexivity) Hst)).
Defined.

Lemma sighin_outcomes_witness :
  let w0 := with_stdin [lit "dave"; lit "pw4"]
              (sim_world [] [alice] true true true) in
  outbox (snd (sighin (mkMessage 42 7) w0)) = [(42%Z, not_registered)]
  /\ stdin (snd (sighin (mkMessage 42 7) w0)) = [lit "pw4"].
Proof.
  intros w0.
  assert (Hnew : forall r, In r (rows_of (login_id w0) ++ [alice]) ->
                           row_username r <> lit "dave").
  { intros r [<- | []]. discriminate. }
  rewrite (proj1 (sighin_outcomes (api := sim_api) w0 (mkMessage 42 7)
                    (lit "dave") [lit "pw4"] (Json.dumps [alice]) [alice]
                    ltac:(reflexivity) ltac:(reflexivity) ltac:(is_text)
                    ltac:(reflexivity))
                 Hnew ltac:(reflexivity)).
  split; reflexivity.
Defined.

Lemma rank_of_entries_witness :
  exists k, In (5%Z, lit "bob", k)
               (rank_of (lit "bob") [alice; bob; (5%Z, lit "eve", lit "pw5")]).
Proof.
  apply (proj2 (RankExtras.rank_of_entries
                  [alice; bob; (5%Z, lit "eve", lit "pw5")] (lit "bob"))
               5%Z (lit "pw2")).
  right. now left.
Defined.


Lemma dumps_injective_witness :
  Forall text_row [alice; bob]
  /\ (Json.dumps [alice; bob] = Json.dumps [alice; bob] ->
      [alice; bob] = [alice; bob]).
Proof.
  assert (H : Forall text_row [alice; bob]) by text_rows.
  split; [exact H|].
  exact (JsonExtras.dumps_injective [alice; bob] [alice; bob] H H).
Defined.

(** The three variants have no NUL character. *)
Lemma three_levels_ready : Opt.ready no_nul three_levels.
Proof.
  exists (lit "easy"), [lit "normal"; lit "hard"].
  split; [reflexivity|]. split; [reflexivity|].
  repeat (constructor; [reflexivity|]). constructor.
Defined.

Lemma switch_next_prev_inverse_witness :
  Opt.ready no_nul three_levels
  /\ Opt.curr_var (snd (Opt.switch_next no_nul three_levels))
     = Some (lit "normal")
  /\ Opt.switch_prev no_nul (snd (Opt.switch_next no_nul three_levels))
     = (Opt.Done tt, three_levels).
Proof.
  split; [exact three_levels_ready|]. split; [reflexivity|].
  exact (proj1 (proj2 (OptFacts.switch_next_prev_inverse no_nul three_levels
                         three_levels_ready))).
Defined.

Lemma switch_next_cycles_witness :
  Opt.ready no_nul three_levels
  /\ Opt.switch_next_times no_nul 3 three_levels = (Opt.Done tt, three_levels).
Proof.
  split; [exact three_levels_ready|].
  exact (proj2 (OptFacts.switch_next_cycles no_nul three_levels
                  [lit "easy"; lit "normal"; lit "hard"] eq_refl
                  three_levels_ready)).
Defined.

Lemma set_curr_value_found_witness :
  In (lit "hard") [lit "easy"; lit "normal"; lit "hard"]
  /\ no_nul (lit "hard") = true
  /\ exists pre post,
       [lit "easy"; lit "normal"; lit "hard"] = pre ++ lit "hard" :: post
       /\ ~ In (lit "hard") pre
       /\ Opt.set_curr_value no_nul 3 (lit "hard") three_levels
          = Some (Opt.Done tt,
                  Opt.mkSwitch (Some (lit "hard" :: post ++ pre))
                               (Some (lit "hard"))).
Proof.
  assert (H : In (lit "hard") [lit "easy"; lit "normal"; lit "hard"])
    by (right; right; now left).
  split; [exact H|]. split; [reflexivity|].
  exact (OptFacts.set_curr_value_found no_nul three_levels
           [lit "easy"; lit "normal"; lit "hard"] (lit "hard") 3
           eq_refl H ltac:(reflexivity) ltac:(cbn; lia)).
Defined.

Lemma set_curr_value_unknown_witness :
  ~ In (lit "insane") [lit "easy"; lit "normal"; lit "hard"]
  /\ Opt.set_curr_value no_nul 3 (lit "insane") three_levels
     = Some (Opt.Fail Opt.ValueError, three_levels).
Proof.
  assert (H : ~ In (lit "insane") [lit "easy"; lit "normal"; lit "hard"]).
  { intros [E | [E | [E | []]]]; discriminate E. }
  split; [exact H|].
  exact (proj1 (OptFacts.set_curr_value_unknown no_nul three_levels
                  (lit "insane") 3)
               [lit "easy"; lit "normal"; lit "hard"] eq_refl H).
Defined.

Lemma ready_is_kept_witness :
  Opt.ready no_nul three_levels
  /\ fst (Opt.switch_mb no_nul true true three_levels) = Opt.Done true
  /\ Opt.curr_var (snd (Opt.switch_mb no_nul true true three_levels))
     = Some (lit "hard").
Proof.
  split; [exact three_levels_ready|].
  destruct (OptFacts.ready_is_kept no_nul three_levels
              [lit "easy"; lit "normal"; lit "hard"] eq_refl
              three_levels_ready true true) as (Hres & _).
  split; [exact Hres | reflexivity].
Defined.

Lemma switch_next_render_fails_witness :
  let s := Opt.mkSwitch (Some [lit "easy"; [0%N]]) (Some (lit "easy")) in
  no_nul [0%N] = false
  /\ Opt.switch_next no_nul s
     = (Opt.Fail Opt.RenderError,
        Opt.mkSwitch (Some [[0%N]; lit "easy"]) (Some [0%N])).
Proof.
  intros s. split; [reflexivity|].
  exact (OptFacts.switch_next_render_fails no_nul s (lit "easy") [0%N] []
           eq_refl eq_refl).
Defined.
